(** * Snapshot cache and cached-stream coordinator

    A shallow embedding of [services/dataCacheService.ts] (the class
    [DataCacheService] and its singleton [dataCache]) and of
    [hooks/useCachedSSE.ts] (the hook [useCachedSSE]), followed by the
    properties of the cache and of the coordinator's merged view.

    Conventions of the embedding:
    - [Date.now()] is an integer number of milliseconds; every method that
      reads the clock takes the reading as its argument [now : Z].
    - The [Map<string, CacheEntry<any>>] held by the service is a
      [gmap string CacheEntry.t].  The source's [Map] also remembers the
      insertion order of its keys, which only [getStats] exposes (as the
      order of its listings); the embedding keeps the listings up to order.
    - A method is a function from the cache before the call to the returned
      value, the cache after the call and the lines written with
      [console.log] (the [Svc] monad below).
    - A string is a sequence of code units below 256, one [ascii] each. *)

From Stdlib Require Import Ascii.
From stdpp Require Import gmap strings list fin_maps.

Open Scope Z_scope.

(** ** Values carried by a feed *)

(** The payload type of the cache is [any]: a parsed JSON document, or
    [null] / [undefined].  Numbers are the integer-valued ones. *)
#[local] Set Warnings "-register-all".
Inductive JsVal : Type :=
| JsNull
| JsUndefined
| JsBool (b : bool)
| JsNum (n : Z)
| JsStr (s : string)
| JsArr (items : list JsVal)
| JsObj (fields : list (string * JsVal)).

(** JavaScript's [ToBoolean], as used by [!x] and [x && y]. *)
Definition truthy (v : JsVal) : bool :=
  match v with
  | JsNull | JsUndefined => false
  | JsBool b => b
  | JsNum n => negb (n =? 0)
  | JsStr s => negb (String.eqb s "")
  | JsArr _ | JsObj _ => true
  end.

(** [Math.round(ms / 1000)] for an integer [ms]: the quotient is rounded to
    the nearest integer, a tie going up. *)
Definition roundSeconds (ms : Z) : Z := (ms + 500) `div` 1000.

(** ** Cache entries *)

Module CacheEntry.
Record t : Type := mk { data : JsVal; timestamp : Z; isStale : bool }.

(** The assignment [entry.isStale = true]. *)
Definition setStale (e : t) : t :=
  {| data := data e; timestamp := timestamp e; isStale := true |}.
End CacheEntry.

Abbreviation Cache := (gmap string CacheEntry.t).

(** ** Console output *)

(** One constructor per [console.log] call of the service and of the hook. *)
Inductive LogMsg : Type :=
| LogCached (key : string) (data : JsVal)
| LogNoData (key : string)
| LogStale (key : string) (ageSec : Z)
| LogExpired (key : string) (ageSec : Z)
| LogRetrieved (key : string) (ageSec : Z)
| LogCleared (key : string)
| LogClearedAll
| LogMarkedStale (key : string)
| LogUsingCached (cacheKey : string)
| LogForceRefresh (cacheKey : string)
| LogManualRefresh (cacheKey : string).

(** ** The service monad: cache state and console output *)

Definition Svc (A : Type) : Type := Cache -> A * Cache * list LogMsg.

Definition ret {A} (a : A) : Svc A := fun c => (a, c, []).

Definition bind {A B} (m : Svc A) (k : A -> Svc B) : Svc B :=
  fun c =>
    let '(a, c1, l1) := m c in
    let '(b, c2, l2) := k a c1 in
    (b, c2, l1 ++ l2).

Declare Scope svc_scope.
Delimit Scope svc_scope with svc.
Notation "'let*' x ':=' m 'in' k" := (bind m (fun x => k))
  (at level 10, x name, m at level 100, k at level 200) : svc_scope.
Notation "m1 '>>' m2" := (bind m1 (fun _ => m2))
  (at level 61, left associativity) : svc_scope.

(** [this.cache.get(key)] *)
Definition cacheGet (key : string) : Svc (option CacheEntry.t) :=
  fun c => (c !! key, c, []).
(** [this.cache.set(key, e)] *)
Definition cacheSet (key : string) (e : CacheEntry.t) : Svc unit :=
  fun c => (tt, <[key := e]> c, []).
(** [this.cache.delete(key)] *)
Definition cacheDelete (key : string) : Svc unit :=
  fun c => (tt, delete key c, []).
(** [this.cache.clear()] *)
Definition cacheClear : Svc unit :=
  fun _ => (tt, ∅, []).
(** [console.log(...)] *)
Definition log (m : LogMsg) : Svc unit :=
  fun c => (tt, c, [m]).
(** A guarded statement: [if (b) { m }]. *)
Definition when (b : bool) (m : Svc unit) : Svc unit :=
  if b then m else ret tt.

Definition value {A} (r : A * Cache * list LogMsg) : A := r.1.1.
Definition cacheAfter {A} (r : A * Cache * list LogMsg) : Cache := r.1.2.
Definition logged {A} (r : A * Cache * list LogMsg) : list LogMsg := r.2.

(** ** [DataCacheService] *)

Module DataCacheService.
Import CacheEntry.
Local Open Scope svc_scope.

Definition CACHE_DURATION : Z := 5 * 60 * 1000.
Definition STALE_DURATION : Z := 30 * 60 * 1000.

Definition set (now : Z) (key : string) (data : JsVal) : Svc unit :=
  cacheSet key {| data := data; timestamp := now; isStale := false |} >>
  log (LogCached key data).

(** [entry] is the object stored in the map, so the assignment to its
    [isStale] field is an update of the stored entry; [data] and
    [timestamp] are not assigned, and are read from [entry] as found. *)
Definition get (now : Z) (key : string) : Svc JsVal :=
  let* entry := cacheGet key in
  match entry with
  | None => log (LogNoData key) >> ret JsNull
  | Some entry =>
      let age := now - timestamp entry in
      when (age >? STALE_DURATION)
        (cacheSet key (setStale entry) >>
         log (LogStale key (roundSeconds age))) >>
      if age >? CACHE_DURATION then
        log (LogExpired key (roundSeconds age)) >>
        cacheDelete key >>
        ret JsNull
      else
        log (LogRetrieved key (roundSeconds age)) >>
        ret (data entry)
  end.

Definition has (now : Z) (key : string) : Svc bool :=
  let* entry := cacheGet key in
  match entry with
  | None => ret false
  | Some entry =>
      let age := now - timestamp entry in
      ret (age <=? CACHE_DURATION)
  end.

Definition isStale (now : Z) (key : string) : Svc bool :=
  let* entry := cacheGet key in
  match entry with
  | None => ret false
  | Some entry =>
      let age := now - timestamp entry in
      ret (age >? STALE_DURATION)
  end.

Definition clear (key : string) : Svc unit :=
  cacheDelete key >> log (LogCleared key).

Definition clearAll : Svc unit :=
  cacheClear >> log LogClearedAll.

Record StatsEntry : Type :=
  mkStatsEntry { se_key : string; se_age : Z; se_isStale : bool }.

Record Stats : Type :=
  mkStats { size : nat; keys : list string; entries : list StatsEntry }.

(** [keys] and [entries] hold what the source lists, in the order of the
    map's keys and not in the order of insertion, which the cache of the
    embedding does not record: what a listing contains and how long it is
    are those of the source, the position of a key in it is not. *)
Definition getStats (now : Z) : Svc Stats :=
  fun c =>
    let entries :=
      (fun kv : string * CacheEntry.t =>
         {| se_key := kv.1;
            se_age := roundSeconds (now - timestamp kv.2);
            se_isStale := CacheEntry.isStale kv.2 |}) <$> map_to_list c in
    ({| size := base.size c; keys := (map_to_list c).*1; entries := entries |},
     c, []).

Definition markStale (key : string) : Svc unit :=
  let* entry := cacheGet key in
  match entry with
  | None => ret tt
  | Some entry =>
      cacheSet key (setStale entry) >> log (LogMarkedStale key)
  end.

End DataCacheService.

(** The exported table [CACHE_KEYS]. *)
Module CACHE_KEYS.
Definition DASHBOARD : string := "dashboard_data".
Definition PREDICTIVE_ANALYSIS : string := "predictive_analysis_data".
Definition SUCTION_SYSTEM : string := "suction_system_data".
Definition DASHBOARD_SSE : string := "dashboard_sse_connection".
Definition PREDICTIVE_SSE : string := "predictive_sse_connection".
Definition SUCTION_SSE : string := "suction_sse_connection".
End CACHE_KEYS.

(** ** Strings: [String.prototype.trim] *)

(** White space and line terminators among the code units below 256:
    TAB, LF, VT, FF, CR, SP and NBSP. *)
Definition isWhiteSpace (a : ascii) : bool :=
  let n := nat_of_ascii a in
  ((9 <=? n) && (n <=? 13) || (n =? 32) || (n =? 160))%nat.

Fixpoint trimStart (s : string) : string :=
  match s with
  | EmptyString => EmptyString
  | String a s' => if isWhiteSpace a then trimStart s' else s
  end.

Fixpoint trimEnd (s : string) : string :=
  match s with
  | EmptyString => EmptyString
  | String a s' =>
      match trimEnd s' with
      | EmptyString => if isWhiteSpace a then EmptyString else String a EmptyString
      | t => String a t
      end
  end.

Definition trim (s : string) : string := trimEnd (trimStart s).

(** Every code unit of the string is white space (so is the empty string). *)
Fixpoint allWhiteSpace (s : string) : bool :=
  match s with
  | EmptyString => true
  | String a s' => isWhiteSpace a && allWhiteSpace s'
  end.

(** ** [useCachedSSE] *)

(** What [useSSE] hands back to the coordinator.  [useSSE] itself is outside
    the files embedded here, so its result is an input of every definition
    below; [reconnect] and [close] are passed through untouched and are left
    out. *)
Module SseResult.
Record t : Type :=
  mk { data : JsVal;
       error : option string;
       isConnected : bool;
       isConnecting : bool;
       loading : bool }.
End SseResult.

(** The [Event] handed to [onError]. *)
Inductive Event : Type := mkEvent (type : string).

(** Calls made to the callbacks the caller supplied in the options. *)
Inductive CallerCall : Type :=
| CalledOnMessage (data : JsVal)
| CalledOnError (error : Event)
| CalledOnOpen
| CalledOnClose.

Module UseCachedSSE.
Import CacheEntry.

(** [UseCachedSSEOptions]: an optional callback is [true] when the caller
    supplied it; [forceRefresh] may be left out. *)
Record Options : Type :=
  mkOptions { onMessage : bool;
              onError : bool;
              onOpen : bool;
              onClose : bool;
              cacheKey : string;
              forceRefresh : option bool }.

(** The destructuring default [forceRefresh = false]. *)
Definition forceRefreshOf (o : Options) : bool := default false (forceRefresh o).

(** The hook's own state: three [useState] cells and one [useRef]. *)
Record HookState : Type :=
  mkHookState { isCached : bool;
                isStale : bool;
                initialLoad : bool;
                hasConnectedRef : bool }.

Definition initialHookState : HookState :=
  {| isCached := false; isStale := false; initialLoad := true;
     hasConnectedRef := false |}.

(** Everything a call of the hook or of one of its handlers can touch: the
    singleton [dataCache], the hook's state, the console and the caller's
    callbacks. *)
Record World : Type :=
  mkWorld { cache : Cache;
            hook : HookState;
            console : list LogMsg;
            calls : list CallerCall }.

(** Run a method of [dataCache] in a world. *)
Definition callCache {A} (m : Svc A) (w : World) : A * World :=
  let r := m (cache w) in
  (value r,
   {| cache := cacheAfter r; hook := hook w;
      console := console w ++ logged r; calls := calls w |}).

Definition setHook (f : HookState -> HookState) (w : World) : World :=
  {| cache := cache w; hook := f (hook w);
     console := console w; calls := calls w |}.

Definition consoleLog (m : LogMsg) (w : World) : World :=
  {| cache := cache w; hook := hook w;
     console := console w ++ [m]; calls := calls w |}.

(** [cb?.(...)]: the call is made only when the callback was supplied. *)
Definition callBack (supplied : bool) (c : CallerCall) (w : World) : World :=
  if supplied
  then {| cache := cache w; hook := hook w;
          console := console w; calls := calls w ++ [c] |}
  else w.

Definition setIsCached (b : bool) (h : HookState) : HookState :=
  {| isCached := b; isStale := isStale h; initialLoad := initialLoad h;
     hasConnectedRef := hasConnectedRef h |}.
Definition setIsStale (b : bool) (h : HookState) : HookState :=
  {| isCached := isCached h; isStale := b; initialLoad := initialLoad h;
     hasConnectedRef := hasConnectedRef h |}.
Definition setInitialLoad (b : bool) (h : HookState) : HookState :=
  {| isCached := isCached h; isStale := isStale h; initialLoad := b;
     hasConnectedRef := hasConnectedRef h |}.
Definition setHasConnected (b : bool) (h : HookState) : HookState :=
  {| isCached := isCached h; isStale := isStale h; initialLoad := initialLoad h;
     hasConnectedRef := b |}.

(** *** The handlers given to [useSSE] *)

Definition handleMessage (o : Options) (now : Z) (data : JsVal) (w : World) : World :=
  let w1 := (callCache (DataCacheService.set now (cacheKey o) data) w).2 in
  let w2 := setHook (setIsCached true) w1 in
  let w3 := setHook (setIsStale false) w2 in
  callBack (onMessage o) (CalledOnMessage data) w3.

Definition handleError (o : Options) (error : Event) (w : World) : World :=
  callBack (onError o) (CalledOnError error) w.

Definition handleOpen (o : Options) (w : World) : World :=
  callBack (onOpen o) CalledOnOpen (setHook (setHasConnected true) w).

Definition handleClose (o : Options) (w : World) : World :=
  callBack (onClose o) CalledOnClose w.

(** *** The merged view *)

(** [!url || url.trim() === ''] *)
Definition noUrl (url : string) : bool :=
  negb (truthy (JsStr url)) || String.eqb (trim url) "".

Definition shouldShowLoading
    (url : string) (initialLoad cachedExists forceRefresh cachedIsStale : bool)
    (sseResult : SseResult.t) : bool :=
  if noUrl url then false
  else if initialLoad && negb cachedExists then true
  else if forceRefresh then true
  else if cachedExists && cachedIsStale && SseResult.isConnecting sseResult then true
  else if cachedExists && negb cachedIsStale then false
  else SseResult.loading sseResult.

(** The immediately invoked function that picks [data]. *)
Definition resolveData (sseData cachedData : JsVal) (forceRefresh : bool) : JsVal :=
  if truthy sseData && negb forceRefresh then sseData
  else if truthy cachedData && negb forceRefresh then cachedData
  else JsNull.

(** [UseCachedSSEReturn], without its three functions. *)
Record View : Type :=
  mkView { data : JsVal;
           error : option string;
           isConnected : bool;
           isConnecting : bool;
           loading : bool;
           viewIsCached : bool;
           viewIsStale : bool }.

(** The three clock readings of one call of the hook, taken in turn by
    [dataCache.get], [dataCache.has] and [dataCache.isStale]. *)
Record Clock : Type := mkClock { atGet : Z; atHas : Z; atIsStale : Z }.

(** One call of the hook (one render): the view it returns, and the world
    it leaves ([dataCache.get] may have dropped the entry). *)
Definition useCachedSSE
    (url : string) (o : Options) (sseResult : SseResult.t) (clk : Clock)
    (w : World) : View * World :=
  let '(cachedData, w1) := callCache (DataCacheService.get (atGet clk) (cacheKey o)) w in
  let '(cachedExists, w2) := callCache (DataCacheService.has (atHas clk) (cacheKey o)) w1 in
  let '(cachedIsStale, w3) := callCache (DataCacheService.isStale (atIsStale clk) (cacheKey o)) w2 in
  ({| data := resolveData (SseResult.data sseResult) cachedData (forceRefreshOf o);
      error := SseResult.error sseResult;
      isConnected := SseResult.isConnected sseResult;
      isConnecting := SseResult.isConnecting sseResult;
      loading := shouldShowLoading url (initialLoad (hook w3)) cachedExists
                   (forceRefreshOf o) cachedIsStale sseResult;
      viewIsCached := isCached (hook w3);
      viewIsStale := isStale (hook w3) |},
   w3).

(** *** Effects and [refreshData] *)

(** The body of the first [useEffect], run by React after a render whose
    [cacheKey], [forceRefresh], [cachedData] or [cachedIsStale] changed. *)
Definition cacheEffect (o : Options) (cachedData : JsVal) (cachedIsStale : bool)
    (w : World) : World :=
  if truthy cachedData && negb (forceRefreshOf o) then
    let w1 := consoleLog (LogUsingCached (cacheKey o)) w in
    let w2 := setHook (setIsCached true) w1 in
    let w3 := setHook (setIsStale cachedIsStale) w2 in
    setHook (setInitialLoad false) w3
  else if forceRefreshOf o then
    let w1 := consoleLog (LogForceRefresh (cacheKey o)) w in
    let w2 := (callCache (DataCacheService.clear (cacheKey o)) w1).2 in
    let w3 := setHook (setIsCached false) w2 in
    let w4 := setHook (setIsStale false) w3 in
    setHook (setInitialLoad true) w4
  else w.

(** The body of the second [useEffect], run when [sseResult.data] changed. *)
Definition sseDataEffect (sseResult : SseResult.t) (w : World) : World :=
  if truthy (SseResult.data sseResult) then
    let w1 := setHook (setIsCached true) w in
    let w2 := setHook (setIsStale false) w1 in
    setHook (setInitialLoad false) w2
  else w.

Definition refreshData (o : Options) (w : World) : World :=
  let w1 := consoleLog (LogManualRefresh (cacheKey o)) w in
  let w2 := (callCache (DataCacheService.markStale (cacheKey o)) w1).2 in
  let w3 := setHook (setIsStale true) w2 in
  setHook (setInitialLoad true) w3.

End UseCachedSSE.

(** ** Sequences of calls on the cache *)

(** A call of one method of [dataCache]. *)
Inductive Call : Type :=
| CallSet (key : string) (data : JsVal)
| CallGet (key : string)
| CallHas (key : string)
| CallIsStale (key : string)
| CallClear (key : string)
| CallClearAll
| CallGetStats
| CallMarkStale (key : string).

(** The cache left by one call made when the clock reads [now]. *)
Definition exec (now : Z) (call : Call) (c : Cache) : Cache :=
  match call with
  | CallSet k v => cacheAfter (DataCacheService.set now k v c)
  | CallGet k => cacheAfter (DataCacheService.get now k c)
  | CallHas k => cacheAfter (DataCacheService.has now k c)
  | CallIsStale k => cacheAfter (DataCacheService.isStale now k c)
  | CallClear k => cacheAfter (DataCacheService.clear k c)
  | CallClearAll => cacheAfter (DataCacheService.clearAll c)
  | CallGetStats => cacheAfter (DataCacheService.getStats now c)
  | CallMarkStale k => cacheAfter (DataCacheService.markStale k c)
  end.

(** The cache left by a sequence of calls, each with its clock reading. *)
Fixpoint run (calls : list (Z * Call)) (c : Cache) : Cache :=
  match calls with
  | [] => c
  | (now, call) :: rest => run rest (exec now call c)
  end.

(** Calls that only ask: [has] and [isStale]. *)
Definition onlyAsks (call : Call) : bool :=
  match call with
  | CallHas _ | CallIsStale _ => true
  | _ => false
  end.

(** Calls that can take the entry of [k] out of the cache. *)
Definition removes (k : string) (call : Call) : bool :=
  match call with
  | CallGet k' | CallClear k' => bool_decide (k' = k)
  | CallClearAll => true
  | _ => false
  end.

(** Calls that store a new entry under [k]. *)
Definition replaces (k : string) (call : Call) : bool :=
  match call with
  | CallSet k' _ => bool_decide (k' = k)
  | _ => false
  end.

(** The key a call names: [clearAll] and [getStats] name none. *)
Definition callKey (call : Call) : option string :=
  match call with
  | CallSet k _ | CallGet k | CallHas k | CallIsStale k
  | CallClear k | CallMarkStale k => Some k
  | CallClearAll | CallGetStats => None
  end.

(** Calls that may write the entry of [k]: the calls that name [k], and
    [clearAll]. *)
Definition touches (k : string) (call : Call) : bool :=
  match call with
  | CallClearAll => true
  | _ => bool_decide (callKey call = Some k)
  end.

(** ** The icon helpers of the dashboard page *)

(** [pages/Dashboard.tsx]: the helpers that pick an icon for a metric key. *)
Module Dashboard.

(** [ToInt32]: the value modulo 2^32, read as a signed 32-bit integer. *)
Definition toInt32 (z : Z) : Z := (z + 2 ^ 31) `mod` 2 ^ 32 - 2 ^ 31.

(** [x << n] on numbers. *)
Definition shl32 (x : Z) (n : Z) : Z := toInt32 (Z.shiftl (toInt32 x) n).

(** [str.charCodeAt(i)] *)
Definition charCode (a : ascii) : Z := Z.of_nat (nat_of_ascii a).

(** The loop of [hashString], from the value of [hash] before the
    characters of [s] are read. *)
Fixpoint hashLoop (hash : Z) (s : string) : Z :=
  match s with
  | EmptyString => hash
  | String a s' =>
      let hash1 := shl32 hash 5 - hash + charCode a in
      hashLoop (toInt32 hash1) s'
  end.

Definition hashString (str : string) : Z := Z.abs (hashLoop 0 str).

Record IconMeta : Type := mkIconMeta { icon : string; color : string }.

(** The entries of [ICON_MAP], in the order [Object.entries] lists them. *)
Definition ICON_MAP : list (string * IconMeta) :=
  [ ("engine_temperature", mkIconMeta "fas fa-temperature-low" "text-red-400");
    ("engine_rpm", mkIconMeta "fas fa-tachometer-alt" "text-green-400");
    ("power_output", mkIconMeta "fas fa-battery-three-quarters" "text-yellow-400");
    ("load_sensor", mkIconMeta "fas fa-weight-hanging" "text-indigo-400");
    ("depth_sensor", mkIconMeta "fas fa-water" "text-blue-400") ].

Definition ICON_POOL : list IconMeta :=
  [ mkIconMeta "fas fa-gauge-high" "text-blue-400";
    mkIconMeta "fas fa-cogs" "text-indigo-400";
    mkIconMeta "fas fa-bolt" "text-yellow-400";
    mkIconMeta "fas fa-wave-square" "text-pink-400";
    mkIconMeta "fas fa-fan" "text-teal-400";
    mkIconMeta "fas fa-compass" "text-orange-400";
    mkIconMeta "fas fa-microchip" "text-cyan-400";
    mkIconMeta "fas fa-signal" "text-lime-400" ].

(** [toLowerCase] on one code unit below 256: the letters A to Z, and the
    capital letters of Latin-1 (all of 192 to 222 but the sign at 215). *)
Definition lowerChar (a : ascii) : ascii :=
  let n := nat_of_ascii a in
  if ((65 <=? n) && (n <=? 90)
      || (192 <=? n) && (n <=? 222) && negb (n =? 215))%nat
  then ascii_of_nat (n + 32) else a.

Fixpoint mapChars (f : ascii -> ascii) (s : string) : string :=
  match s with
  | EmptyString => EmptyString
  | String a s' => String (f a) (mapChars f s')
  end.

Definition toLowerCase (s : string) : string := mapChars lowerChar s.

(** [s.replace(/_/g, ' ')] *)
Definition underscoresToSpaces (s : string) : string :=
  mapChars (fun a => if Ascii.eqb a "_" then " "%char else a) s.

(** [s.includes(sub)] *)
Fixpoint includes (s sub : string) : bool :=
  String.prefix sub s ||
  match s with
  | EmptyString => false
  | String _ s' => includes s' sub
  end.

(** The [for ... of Object.entries(ICON_MAP)] loop: the first entry whose
    key, underscores turned to spaces, occurs in [keyLower]. *)
Fixpoint firstMatch (keyLower : string) (entries : list (string * IconMeta))
  : option IconMeta :=
  match entries with
  | [] => None
  | (mapKey, meta) :: rest =>
      if includes keyLower (underscoresToSpaces mapKey) then Some meta
      else firstMatch keyLower rest
  end.

(** The result is [None] where the source would return [undefined] (an
    index outside [ICON_POOL]). *)
Definition getIconMetaForKey (key : string) : option IconMeta :=
  let keyLower := underscoresToSpaces (toLowerCase key) in
  match firstMatch keyLower ICON_MAP with
  | Some meta => Some meta
  | None =>
      let idx := hashString key `mod` Z.of_nat (length ICON_POOL) in
      ICON_POOL !! Z.to_nat idx
  end.

End Dashboard.

(** ** The severity of an alert, on two pages *)

(** Both pages turn the alerts object of a payload into a list with
    [Object.entries(...).map], and grade each alert by words found in
    [String(status).toLowerCase()].  The two gradings below are those two
    function bodies, from the string [String(status)] on. *)
Module Alerts.

Inductive Severity : Type := High | Medium | Low.

(** [pages/Dashboard.tsx], in [getAlertsData]:
    [statusStr.includes('high') || ...]. *)
Definition dashboardSeverity (status : string) : Severity :=
  let statusStr := Dashboard.toLowerCase status in
  if Dashboard.includes statusStr "high"
     || Dashboard.includes statusStr "critical"
     || Dashboard.includes statusStr "danger"
  then High
  else if Dashboard.includes statusStr "medium"
          || Dashboard.includes statusStr "warning"
          || Dashboard.includes statusStr "caution"
  then Medium
  else Low.

(** [re.test(s)] for a regular expression [/w1|w2|.../i] whose
    alternatives are lower-case words: some alternative occurs in [s],
    letter case aside. *)
Definition testWords (words : list string) (s : string) : bool :=
  existsb (Dashboard.includes (Dashboard.toLowerCase s)) words.

(** The predictive-analysis page, in [normalizeApiData]:
    [/high|critical|danger|error/i.test(s) ? 'high'
     : /warn|medium|warning/i.test(s) ? 'medium' : 'low']. *)
Definition predictiveSeverity (status : string) : Severity :=
  let s := Dashboard.toLowerCase status in
  if testWords ["high"; "critical"; "danger"; "error"] s then High
  else if testWords ["warn"; "medium"; "warning"] s then Medium
  else Low.

End Alerts.

(** The polynomial in 31 of the code units of [s], the first one weighing
    most, started from [h] and taken in the integers (no wrap-around); the
    reference [hashString] is compared with. *)
Fixpoint horner31 (h : Z) (s : string) : Z :=
  match s with
  | EmptyString => h
  | String a s' => horner31 (31 * h + Dashboard.charCode a) s'
  end.

(** ** The view as the specification words it *)

(** The two resolution orders of the coordinator's view, written from the
    specification's sentences; they are compared with [shouldShowLoading]
    and [resolveData] below. *)
Module Stated.

(** "false if URL empty; true if first load and no cache exists; true if
    forceRefresh in flight; true if cached entry is stale AND a reconnect
    is actively in progress; false if a fresh cache entry exists;
    otherwise mirrors the underlying subscription's loading flag." *)
Definition loading
    (url : string) (initialLoad cachedExists forceRefresh cachedIsStale : bool)
    (sseResult : SseResult.t) : bool :=
  if String.eqb url "" then false
  else if initialLoad && negb cachedExists then true
  else if forceRefresh then true
  else if cachedExists && cachedIsStale && SseResult.isConnecting sseResult then true
  else if cachedExists && negb cachedIsStale then false
  else SseResult.loading sseResult.

(** A message, or a cached payload, is there: it is not [null] (nor
    [undefined]). *)
Definition available (v : JsVal) : bool :=
  match v with
  | JsNull | JsUndefined => false
  | _ => true
  end.

(** "(a) latest live message if available and not under forced refresh;
    (b) cached payload if present and not under forced refresh;
    (c) absent." *)
Definition data (sseData cachedData : JsVal) (forceRefresh : bool) : JsVal :=
  if available sseData && negb forceRefresh then sseData
  else if available cachedData && negb forceRefresh then cachedData
  else JsNull.

End Stated.

(** A value that [x && ...] lets through, and [null] in place of one that
    it does not. *)
Definition absentIfFalsy (v : JsVal) : JsVal := if truthy v then v else JsNull.

(** * Properties *)

(** ** The equations of the service's methods *)

Section MethodEquations.
Import CacheEntry DataCacheService.
Variables (c : Cache) (k : string).

Lemma durations : CACHE_DURATION = 300 * 1000 /\ STALE_DURATION = 1800 * 1000.
Proof. split; reflexivity. Qed.

Lemma gtb_true (a b : Z) : b < a -> (a >? b) = true.
Proof. intros H. destruct (Z.gtb_spec a b); [done | lia]. Qed.

Lemma gtb_false (a b : Z) : a <= b -> (a >? b) = false.
Proof. intros H. destruct (Z.gtb_spec a b); [lia | done]. Qed.

Lemma set_eq (now : Z) (v : JsVal) :
  set now k v c =
  (tt, <[k := CacheEntry.mk v now false]> c, [LogCached k v]).
Proof. reflexivity. Qed.

Lemma get_absent (now : Z) :
  c !! k = None -> get now k c = (JsNull, c, [LogNoData k]).
Proof. intros H. unfold get, bind, cacheGet. by rewrite H. Qed.

Lemma get_live (now : Z) (e : CacheEntry.t) :
  c !! k = Some e ->
  now - timestamp e <= CACHE_DURATION ->
  get now k c = (data e, c, [LogRetrieved k (roundSeconds (now - timestamp e))]).
Proof.
  intros H Hage. unfold get, bind, cacheGet. rewrite H.
  rewrite !gtb_false; [done | lia |].
  unfold CACHE_DURATION, STALE_DURATION in *. lia.
Qed.

Lemma get_expired (now : Z) (e : CacheEntry.t) :
  c !! k = Some e ->
  CACHE_DURATION < now - timestamp e <= STALE_DURATION ->
  get now k c =
  (JsNull, delete k c, [LogExpired k (roundSeconds (now - timestamp e))]).
Proof.
  intros H [Hlo Hhi]. unfold get, bind, cacheGet. rewrite H.
  rewrite (gtb_false _ STALE_DURATION) by lia.
  by rewrite (gtb_true _ CACHE_DURATION) by lia.
Qed.

Lemma get_stale (now : Z) (e : CacheEntry.t) :
  c !! k = Some e ->
  STALE_DURATION < now - timestamp e ->
  get now k c =
  (JsNull, delete k c,
   [LogStale k (roundSeconds (now - timestamp e));
    LogExpired k (roundSeconds (now - timestamp e))]).
Proof.
  intros H Hage. unfold get, bind, cacheGet. rewrite H.
  rewrite (gtb_true _ STALE_DURATION) by lia.
  rewrite (gtb_true _ CACHE_DURATION)
    by (unfold CACHE_DURATION, STALE_DURATION in *; lia).
  cbn. by rewrite delete_insert_eq.
Qed.

Lemma has_eq (now : Z) :
  has now k c =
  (match c !! k with
   | Some e => now - timestamp e <=? CACHE_DURATION
   | None => false
   end, c, []).
Proof. unfold has, bind, cacheGet. by destruct (c !! k). Qed.

Lemma isStale_eq (now : Z) :
  DataCacheService.isStale now k c =
  (match c !! k with
   | Some e => now - timestamp e >? STALE_DURATION
   | None => false
   end, c, []).
Proof. unfold DataCacheService.isStale, bind, cacheGet. by destruct (c !! k). Qed.

Lemma markStale_present (e : CacheEntry.t) :
  c !! k = Some e ->
  markStale k c = (tt, <[k := setStale e]> c, [LogMarkedStale k]).
Proof. intros H. unfold markStale, bind, cacheGet. by rewrite H. Qed.

Lemma markStale_absent :
  c !! k = None -> markStale k c = (tt, c, []).
Proof. intros H. unfold markStale, bind, cacheGet. by rewrite H. Qed.

Lemma clear_eq : clear k c = (tt, delete k c, [LogCleared k]).
Proof. reflexivity. Qed.

Lemma clearAll_eq : clearAll c = (tt, ∅, [LogClearedAll]).
Proof. reflexivity. Qed.

(** The three ways [get] can go, by the age of the entry. *)
Lemma get_cases (now : Z) :
  (c !! k = None /\ get now k c = (JsNull, c, [LogNoData k])) \/
  (exists e, c !! k = Some e /\
     ((now - timestamp e <= CACHE_DURATION /\
       get now k c =
       (data e, c, [LogRetrieved k (roundSeconds (now - timestamp e))])) \/
      (CACHE_DURATION < now - timestamp e /\
       value (get now k c) = JsNull /\
       cacheAfter (get now k c) = delete k c))).
Proof.
  destruct (c !! k) as [e|] eqn:H; [right; exists e; split; [done|] | left].
  - destruct (Z_le_gt_dec (now - timestamp e) CACHE_DURATION) as [Hle|Hgt].
    + left. split; [done | by apply get_live].
    + right. split; [lia|].
      destruct (Z_le_gt_dec (now - timestamp e) STALE_DURATION) as [Hs|Hs].
      * by rewrite (get_expired now e) by (done || lia).
      * by rewrite (get_stale now e) by (done || lia).
  - split; [done | by apply get_absent].
Qed.

(** A line "retrieved" on the console comes from an entry that has not
    expired, and then nothing else was written. *)
Lemma get_serves_only_unexpired (now a : Z) :
  LogRetrieved k a ∈ logged (get now k c) ->
  exists e, c !! k = Some e /\
    now - timestamp e <= CACHE_DURATION /\
    get now k c = (data e, c, [LogRetrieved k a]).
Proof.
  destruct (c !! k) as [e|] eqn:H.
  - destruct (Z_le_gt_dec (now - timestamp e) CACHE_DURATION) as [Hle|Hgt].
    + rewrite (get_live now e) by done. intros Hin.
      apply list_elem_of_singleton in Hin. injection Hin as ->. eauto.
    + destruct (Z_le_gt_dec (now - timestamp e) STALE_DURATION) as [Hs|Hs].
      * rewrite (get_expired now e) by (done || lia). intros Hin.
        by apply list_elem_of_singleton in Hin.
      * rewrite (get_stale now e) by (done || lia). unfold logged; cbn.
        rewrite !elem_of_cons. intros [?|[?|Hin]]; [done | done |].
        by apply elem_of_nil in Hin.
  - rewrite get_absent by done. intros Hin.
    by apply list_elem_of_singleton in Hin.
Qed.

End MethodEquations.

(** ** Reading back what was stored *)

Section ReadBack.
Import CacheEntry DataCacheService.

(** [get] within the expiry window after a [set] returns the payload and
    leaves the cache as [set] left it. *)
Lemma get_within_expiry_of_set (c : Cache) (k : string) (v : JsVal) (t now : Z) :
  now - t <= CACHE_DURATION ->
  value (get now k (cacheAfter (set t k v c))) = v /\
  cacheAfter (get now k (cacheAfter (set t k v c))) = cacheAfter (set t k v c).
Proof.
  intros Hage.
  assert (cacheAfter (set t k v c) !! k = Some (CacheEntry.mk v t false)) as Hk
    by (rewrite set_eq; apply lookup_insert_eq).
  by rewrite (get_live _ k now _ Hk Hage).
Qed.

(** C6: for every key [k] and payload [v], a [get k] made at the clock
    reading of [set k v] (age 0, below both thresholds) returns [v]; the
    entry it read is still the one stored. *)
Theorem get_after_set (c : Cache) (k : string) (v : JsVal) (now : Z) :
  value (get now k (cacheAfter (set now k v c))) = v /\
  cacheAfter (get now k (cacheAfter (set now k v c))) !! k
    = Some (CacheEntry.mk v now false).
Proof.
  destruct (get_within_expiry_of_set c k v now now) as [Hv Hc].
  - unfold CACHE_DURATION. lia.
  - split; [done|]. rewrite Hc, set_eq. apply lookup_insert_eq.
Qed.

(** C3: for every key [k] whose entry is older than the expiry threshold
    (300 s), [get k] returns null and takes the entry out of the cache, so
    that [has k] is false from then on, whatever the clock reads. *)
Theorem get_expired_removes_entry
    (c : Cache) (k : string) (e : CacheEntry.t) (now : Z) :
  c !! k = Some e ->
  now - timestamp e > 300 * 1000 ->
  value (get now k c) = JsNull /\
  cacheAfter (get now k c) = delete k c /\
  cacheAfter (get now k c) !! k = None /\
  forall later, value (has later k (cacheAfter (get now k c))) = false.
Proof.
  intros Hk Hage.
  destruct (get_cases c k now) as [[Hnone _]|(e' & He' & [[Hle _]|(_ & Hv & Hc)])].
  - congruence.
  - assert (e' = e) as -> by congruence.
    unfold CACHE_DURATION in Hle. lia.
  - rewrite Hv, Hc. split_and!; [done | done | apply lookup_delete_eq |].
    intros later. rewrite has_eq. unfold value; cbn.
    by rewrite lookup_delete_eq.
Qed.

Lemma get_expired_removes_entry_witness :
  let c : Cache := {[ CACHE_KEYS.SUCTION_SYSTEM := CacheEntry.mk (JsNum 7) 0 false ]} in
  value (get 300001 CACHE_KEYS.SUCTION_SYSTEM c) = JsNull /\
  value (has 300001 CACHE_KEYS.SUCTION_SYSTEM
           (cacheAfter (get 300001 CACHE_KEYS.SUCTION_SYSTEM c))) = false.
Proof.
  intros c.
  destruct (get_expired_removes_entry c CACHE_KEYS.SUCTION_SYSTEM
              (CacheEntry.mk (JsNum 7) 0 false) 300001) as (Hv & _ & _ & Hh).
  - reflexivity.
  - simpl. lia.
  - split; [exact Hv | exact (Hh 300001)].
Defined.

(** C2: the expiry threshold (300 s) is below the staleness threshold
    (1800 s), so for every key whose entry is older than 1800 s [get]
    marks the entry stale and then drops it as expired: it returns null,
    the entry is deleted, and the console shows the "stale" line followed
    by the "expired" line, never the "retrieved" line of the branch that
    returns a payload. *)
Theorem get_beyond_staleness_returns_absent
    (c : Cache) (k : string) (e : CacheEntry.t) (now : Z) :
  c !! k = Some e ->
  now - timestamp e > STALE_DURATION ->
  CACHE_DURATION = 300 * 1000 /\ STALE_DURATION = 1800 * 1000 /\
  CACHE_DURATION < STALE_DURATION /\
  get now k c =
    (JsNull, delete k c,
     [LogStale k (roundSeconds (now - timestamp e));
      LogExpired k (roundSeconds (now - timestamp e))]) /\
  cacheAfter (get now k c) !! k = None /\
  forall a, LogRetrieved k a ∉ logged (get now k c).
Proof.
  intros Hk Hage.
  assert (Hget := get_stale c k now e Hk ltac:(lia)).
  split_and!; try done.
  - rewrite Hget. apply lookup_delete_eq.
  - intros a Hin. apply get_serves_only_unexpired in Hin as (e' & He' & Hle & _).
    assert (e' = e) as -> by congruence.
    unfold CACHE_DURATION, STALE_DURATION in *. lia.
Qed.

Lemma get_beyond_staleness_returns_absent_witness :
  let c : Cache := {[ CACHE_KEYS.SUCTION_SYSTEM := CacheEntry.mk (JsNum 7) 0 false ]} in
  get 1900000 CACHE_KEYS.SUCTION_SYSTEM c =
    (JsNull, delete CACHE_KEYS.SUCTION_SYSTEM c,
     [LogStale CACHE_KEYS.SUCTION_SYSTEM 1900; LogExpired CACHE_KEYS.SUCTION_SYSTEM 1900]).
Proof.
  intros c.
  destruct (get_beyond_staleness_returns_absent c CACHE_KEYS.SUCTION_SYSTEM
              (CacheEntry.mk (JsNum 7) 0 false) 1900000) as (_ & _ & _ & Hg & _).
  - reflexivity.
  - vm_compute. reflexivity.
  - exact Hg.
Defined.

(** [markStale] writes the stored flag and nothing else. *)
Lemma markStale_lookup (c : Cache) (k k' : string) :
  cacheAfter (markStale k c) !! k' =
  if decide (k = k') then setStale <$> c !! k' else c !! k'.
Proof.
  destruct (c !! k) as [e|] eqn:H.
  - rewrite (markStale_present _ _ e) by done. unfold cacheAfter; cbn.
    rewrite lookup_insert. case_decide; [subst; by rewrite H | done].
  - rewrite markStale_absent by done. unfold cacheAfter; cbn.
    case_decide; [subst; by rewrite H | done].
Qed.

(** The answer of [isStale] depends on the age alone: [markStale] does
    not change it. *)
Lemma isStale_after_markStale (c : Cache) (k : string) (now : Z) :
  value (DataCacheService.isStale now k (cacheAfter (markStale k c)))
  = value (DataCacheService.isStale now k c).
Proof.
  rewrite !isStale_eq. unfold value; cbn [fst snd].
  rewrite markStale_lookup. rewrite decide_True by done.
  by destruct (c !! k).
Qed.

(** On a key without entry [markStale] does nothing: the cache is the
    same, and nothing is written on the console. *)
Lemma markStale_absent_noop (c : Cache) (k : string) :
  c !! k = None -> markStale k c = (tt, c, []).
Proof. apply markStale_absent. Qed.

(** C1, at an entry stored when the clock reads 1000 and marked at once:
    [markStale] has set the stored flag, and [isStale], asked at the same
    reading, answers [false]. *)
Theorem markStale_then_isStale_fresh :
  let c0 : Cache := cacheAfter (set 1000 CACHE_KEYS.DASHBOARD (JsObj [("temp", JsNum 72)]) ∅) in
  let c1 := cacheAfter (markStale CACHE_KEYS.DASHBOARD c0) in
  c1 !! CACHE_KEYS.DASHBOARD
    = Some (CacheEntry.mk (JsObj [("temp", JsNum 72)]) 1000 true) /\
  value (DataCacheService.isStale 1000 CACHE_KEYS.DASHBOARD c1) = false.
Proof. split; reflexivity. Qed.

End ReadBack.

(** ** What a call leaves of the other entries *)

Section Frames.
Import CacheEntry DataCacheService.

Lemma get_other (c : Cache) (k k' : string) (now : Z) :
  k' ≠ k -> cacheAfter (get now k' c) !! k = c !! k.
Proof.
  intros Hne.
  destruct (get_cases c k' now) as [[_ ->]|(e & _ & [[_ ->]|(_ & _ & ->)])];
    [done | done | by apply lookup_delete_ne].
Qed.

Lemma asks_keep_cache (c : Cache) (now : Z) (call : Call) :
  onlyAsks call = true -> exec now call c = c.
Proof.
  destruct call; try discriminate; intros _; cbn [exec].
  - by rewrite has_eq.
  - by rewrite isStale_eq.
Qed.

Lemma run_asks_keep_cache (calls : list (Z * Call)) (c : Cache) :
  Forall (fun tc => onlyAsks tc.2 = true) calls -> run calls c = c.
Proof.
  induction 1 as [|[now call] rest Hcall _ IH]; [done|].
  cbn in *. by rewrite asks_keep_cache.
Qed.

(** A call that is not a [get] of [k], a [clear] of [k] or a [clearAll]
    leaves an entry under [k]: a new one after [set k], and otherwise the
    old one, with its payload and its timestamp. *)
Lemma exec_keeps_entry (c : Cache) (k : string) (e : CacheEntry.t)
    (now : Z) (call : Call) :
  c !! k = Some e ->
  removes k call = false ->
  exists e', exec now call c !! k = Some e' /\
    (replaces k call = true \/
     (data e' = data e /\ timestamp e' = timestamp e)).
Proof.
  intros Hk Hrm.
  destruct call as [k' v|k'|k'|k'|k'| | |k']; cbn [exec removes replaces] in *.
  - rewrite set_eq. unfold cacheAfter; cbn. rewrite lookup_insert.
    case_decide as Hkk; [subst k'|].
    + eexists; split; [done|]. left. by apply bool_decide_eq_true.
    + exists e. split; [done | by right].
  - apply bool_decide_eq_false in Hrm.
    exists e. rewrite get_other by done. by split; [|right].
  - rewrite has_eq. exists e. by split; [|right].
  - rewrite isStale_eq. exists e. by split; [|right].
  - apply bool_decide_eq_false in Hrm. rewrite clear_eq.
    unfold cacheAfter; cbn. rewrite lookup_delete_ne by done.
    exists e. by split; [|right].
  - discriminate.
  - exists e. by split; [|right].
  - rewrite markStale_lookup. case_decide as Hkk; rewrite Hk; cbn.
    + exists (setStale e). by split; [|right].
    + exists e. by split; [|right].
Qed.

Lemma run_keeps_entry (calls : list (Z * Call)) (c : Cache) (k : string)
    (e : CacheEntry.t) :
  c !! k = Some e ->
  Forall (fun tc => removes k tc.2 = false) calls ->
  exists e', run calls c !! k = Some e' /\
    (Exists (fun tc => replaces k tc.2 = true) calls \/
     (data e' = data e /\ timestamp e' = timestamp e)).
Proof.
  intros Hk Hall. revert c e Hk.
  induction Hall as [|[now call] rest Hcall _ IH]; intros c e Hk; cbn in *.
  - exists e. by split; [|right].
  - destruct (exec_keeps_entry c k e now call Hk Hcall) as (e1 & Hk1 & Hstep).
    destruct (IH _ _ Hk1) as (e' & Hk' & Hrest).
    exists e'. split; [done|].
    destruct Hstep as [Hrep|[Hd Ht]]; [left; by apply Exists_cons_hd|].
    destruct Hrest as [Hex|[Hd' Ht']]; [left; by apply Exists_cons_tl|].
    right. split; congruence.
Qed.

(** After a call, a stored flag that is set was set before the call, or
    the call was [markStale] of that key. *)
Lemma exec_flag_origin (c : Cache) (k : string) (e' : CacheEntry.t)
    (now : Z) (call : Call) :
  exec now call c !! k = Some e' ->
  CacheEntry.isStale e' = true ->
  call = CallMarkStale k \/
  exists e, c !! k = Some e /\ CacheEntry.isStale e = true.
Proof.
  destruct call as [k' v|k'|k'|k'|k'| | |k']; cbn [exec].
  - rewrite set_eq. unfold cacheAfter; cbn. rewrite lookup_insert.
    case_decide; [intros [= <-]; discriminate | eauto].
  - destruct (get_cases c k' now) as [[_ ->]|(e & _ & [[_ ->]|(_ & _ & ->)])];
      unfold cacheAfter; cbn; [eauto | eauto |].
    rewrite lookup_delete. case_decide; [discriminate | eauto].
  - rewrite has_eq. eauto.
  - rewrite isStale_eq. eauto.
  - rewrite clear_eq. unfold cacheAfter; cbn.
    rewrite lookup_delete. case_decide; [discriminate | eauto].
  - rewrite clearAll_eq. unfold cacheAfter; cbn. by rewrite lookup_empty.
  - eauto.
  - rewrite markStale_lookup. case_decide; [subst; by left | eauto].
Qed.

(** What [getStats] lists. *)
Lemma getStats_keys (c : Cache) (now : Z) (k : string) :
  k ∈ keys (value (getStats now c)) <-> is_Some (c !! k).
Proof.
  unfold getStats, value; cbn. rewrite list_elem_of_fmap. split.
  - intros ([k' e] & -> & Hin). apply elem_of_map_to_list in Hin. eauto.
  - intros [e He]. exists (k, e). split; [done|]. by apply elem_of_map_to_list.
Qed.

Lemma getStats_entries (c : Cache) (now : Z) (se : StatsEntry) :
  se ∈ entries (value (getStats now c)) <->
  exists k e, c !! k = Some e /\
    se = mkStatsEntry k (roundSeconds (now - timestamp e)) (CacheEntry.isStale e).
Proof.
  unfold getStats, value; cbn. rewrite list_elem_of_fmap. split.
  - intros ([k e] & -> & Hin). apply elem_of_map_to_list in Hin. eauto.
  - intros (k & e & He & ->). exists (k, e). split; [done|].
    by apply elem_of_map_to_list.
Qed.

Lemma getStats_size (c : Cache) (now : Z) :
  size (value (getStats now c)) = length (keys (value (getStats now c))) /\
  length (entries (value (getStats now c))) = size (value (getStats now c)).
Proof.
  unfold getStats, value; cbn. rewrite !length_fmap.
  by rewrite length_map_to_list.
Qed.

End Frames.

(** ** Entries that nobody reads with [get] *)

Section Lingering.
Import CacheEntry DataCacheService.

(** C9: [has k] is true exactly when an entry is stored under [k] and is
    at most 300 s old; [has] and [isStale] return the cache they were
    given; so an entry older than 300 s, for which [has] is false, is
    still stored and still listed by [getStats] after any calls among
    which there is no [get] of its key, no [clear] of its key and no
    [clearAll]: with its payload and timestamp, unless a [set] of the key
    stored a new one. *)
Theorem expired_entry_lingers
    (c : Cache) (k : string) (e : CacheEntry.t) (now : Z)
    (calls : list (Z * Call)) (later : Z) :
  c !! k = Some e ->
  now - timestamp e > CACHE_DURATION ->
  Forall (fun tc => removes k tc.2 = false) calls ->
  (forall c0 k0 t0,
      value (has t0 k0 c0) = true <->
      exists e0, c0 !! k0 = Some e0 /\ t0 - timestamp e0 <= 300 * 1000) /\
  (forall c0 k0 t0,
      cacheAfter (has t0 k0 c0) = c0 /\
      cacheAfter (DataCacheService.isStale t0 k0 c0) = c0) /\
  value (has now k c) = false /\
  exists e',
    run calls c !! k = Some e' /\
    k ∈ keys (value (getStats later (run calls c))) /\
    (Exists (fun tc => replaces k tc.2 = true) calls \/
     (data e' = data e /\ timestamp e' = timestamp e)).
Proof.
  intros Hk Hage Hcalls. split_and!.
  - intros c0 k0 t0. rewrite has_eq. unfold value; cbn [fst].
    destruct (c0 !! k0) as [e0|]; split.
    + intros H%Z.leb_le. exists e0. split; [done|]. unfold CACHE_DURATION in H. lia.
    + intros (e1 & [= <-] & H). apply Z.leb_le. unfold CACHE_DURATION. lia.
    + discriminate.
    + by intros (e1 & ? & _).
  - intros c0 k0 t0. by rewrite has_eq, isStale_eq.
  - rewrite has_eq. unfold value; cbn [fst]. rewrite Hk. apply Z.leb_gt. lia.
  - destruct (run_keeps_entry calls c k e Hk Hcalls) as (e' & Hk' & Hsame).
    exists e'. split_and!; [done | | done].
    apply getStats_keys. eauto.
Qed.

Lemma expired_entry_lingers_witness :
  let k := CACHE_KEYS.SUCTION_SYSTEM in
  let c : Cache := {[ k := CacheEntry.mk (JsNum 7) 0 false ]} in
  let calls := [(400000, CallHas k); (400001, CallIsStale k);
                (400002, CallGetStats); (400003, CallMarkStale k)] in
  value (has 400000 k c) = false /\
  k ∈ keys (value (getStats 400004 (run calls c))).
Proof.
  intros k c calls.
  destruct (expired_entry_lingers c k (CacheEntry.mk (JsNum 7) 0 false)
              400000 calls 400004) as (_ & _ & Hh & e' & _ & Hin & _).
  - reflexivity.
  - vm_compute. reflexivity.
  - repeat constructor.
  - split; [exact Hh | exact Hin].
Defined.

(** C10: [getStats] returns the cache it was given, and the [isStale] it
    reports for an entry is the stored flag of that entry, which no call
    other than [markStale] of the key leaves set where it was not; so
    for an entry stored at [t] and then only asked about with [has] and
    [isStale], once older than 1800 s, [getStats] reports
    [isStale = false] while [isStale] of its key answers [true]. *)
Theorem getStats_reports_stored_flag
    (c : Cache) (k : string) (v : JsVal) (t now : Z) (calls : list (Z * Call)) :
  Forall (fun tc => onlyAsks tc.2 = true) calls ->
  now - t > STALE_DURATION ->
  let c' := run calls (cacheAfter (set t k v c)) in
  (forall c0 t0, cacheAfter (getStats t0 c0) = c0) /\
  (forall c0 t0 se,
      se ∈ entries (value (getStats t0 c0)) <->
      exists k0 e0, c0 !! k0 = Some e0 /\
        se = mkStatsEntry k0 (roundSeconds (t0 - timestamp e0))
               (CacheEntry.isStale e0)) /\
  (forall c0 k0 e0 t0 call,
      exec t0 call c0 !! k0 = Some e0 ->
      CacheEntry.isStale e0 = true ->
      call = CallMarkStale k0 \/
      exists e, c0 !! k0 = Some e /\ CacheEntry.isStale e = true) /\
  mkStatsEntry k (roundSeconds (now - t)) false
    ∈ entries (value (getStats now c')) /\
  (forall se, se ∈ entries (value (getStats now c')) ->
              se_key se = k -> se_isStale se = false) /\
  value (DataCacheService.isStale now k c') = true.
Proof.
  intros Hcalls Hage c'.
  assert (c' = <[k := CacheEntry.mk v t false]> c) as Hc'
    by (unfold c'; by rewrite run_asks_keep_cache, set_eq).
  assert (c' !! k = Some (CacheEntry.mk v t false)) as Hk
    by (rewrite Hc'; apply lookup_insert_eq).
  split_and!.
  - done.
  - apply getStats_entries.
  - apply exec_flag_origin.
  - apply getStats_entries. eauto.
  - intros se (k0 & e0 & He0 & ->)%getStats_entries Hkey. cbn in *. subst k0.
    rewrite Hk in He0. by injection He0 as <-.
  - rewrite isStale_eq. unfold value; cbn [fst]. rewrite Hk. cbn.
    apply gtb_true. lia.
Qed.

Lemma getStats_reports_stored_flag_witness :
  let k := CACHE_KEYS.PREDICTIVE_ANALYSIS in
  let calls := [(1000, CallHas k); (2000000, CallIsStale k)] in
  let c' := run calls (cacheAfter (set 0 k (JsStr "ok") ∅)) in
  mkStatsEntry k 1900 false ∈ entries (value (getStats 1900000 c')) /\
  value (DataCacheService.isStale 1900000 k c') = true.
Proof.
  intros k calls c'.
  destruct (getStats_reports_stored_flag ∅ k (JsStr "ok") 0 1900000 calls)
    as (_ & _ & _ & Hin & _ & Hs).
  - repeat constructor.
  - vm_compute. reflexivity.
  - split; [exact Hin | exact Hs].
Defined.

End Lingering.

(** ** The coordinator's view *)

Section Trim.

Lemma trimEnd_nonspace (a : ascii) (s : string) :
  isWhiteSpace a = false -> trimEnd (String a s) <> EmptyString.
Proof. intros Ha. cbn. rewrite Ha. by destruct (trimEnd s). Qed.

Lemma trimStart_split (s : string) :
  (allWhiteSpace s = true /\ trimStart s = EmptyString) \/
  (allWhiteSpace s = false /\
   exists a s', trimStart s = String a s' /\ isWhiteSpace a = false).
Proof.
  induction s as [|a s IH]; cbn; [by left|].
  destruct (isWhiteSpace a) eqn:Ha; cbn; [done|].
  right. split; [done|]. by exists a, s.
Qed.

(** [trim] leaves nothing exactly of the strings made of white space. *)
Lemma trim_empty (s : string) :
  String.eqb (trim s) "" = allWhiteSpace s.
Proof.
  unfold trim.
  destruct (trimStart_split s) as [[-> ->]|(-> & a & s' & -> & Ha)]; [done|].
  apply String.eqb_neq. by apply trimEnd_nonspace.
Qed.

Lemma noUrl_allWhiteSpace (url : string) :
  UseCachedSSE.noUrl url = allWhiteSpace url.
Proof.
  unfold UseCachedSSE.noUrl. rewrite trim_empty.
  by destruct url as [|a s].
Qed.

End Trim.

Example trim_demo : trim "  a b  " = "a b".
Proof. reflexivity. Qed.

Section View.
Import UseCachedSSE.

(** What one call of the hook returns as [data] and as [loading], in
    terms of the three reads of the cache. *)
Lemma useCachedSSE_data (url : string) (o : Options) (sse : SseResult.t)
    (clk : Clock) (w : World) :
  data (useCachedSSE url o sse clk w).1 =
  resolveData (SseResult.data sse)
    (value (DataCacheService.get (atGet clk) (cacheKey o) (cache w)))
    (forceRefreshOf o).
Proof. reflexivity. Qed.

Lemma useCachedSSE_loading (url : string) (o : Options) (sse : SseResult.t)
    (clk : Clock) (w : World) :
  let c1 := cacheAfter (DataCacheService.get (atGet clk) (cacheKey o) (cache w)) in
  loading (useCachedSSE url o sse clk w).1 =
  shouldShowLoading url (initialLoad (hook w))
    (value (DataCacheService.has (atHas clk) (cacheKey o) c1))
    (forceRefreshOf o)
    (value (DataCacheService.isStale (atIsStale clk) (cacheKey o) c1))
    sse.
Proof.
  intros c1. unfold useCachedSSE, callCache. cbn [fst snd loading cache hook].
  fold c1.
  assert (cacheAfter (DataCacheService.has (atHas clk) (cacheKey o) c1) = c1)
    as -> by (by rewrite has_eq).
  done.
Qed.

(** The claim C4 as worded fails on a URL made of one space: on a first
    load without cached entry the hook reports no loading, where the
    worded resolution passes its first rule (the URL is not the empty
    string) and answers [true] by its second. *)
Lemma loading_as_stated_fails_on_blank_url :
  let sse := SseResult.mk JsNull None false true true in
  shouldShowLoading " " true false false false sse = false /\
  Stated.loading " " true false false false sse = true.
Proof. split; reflexivity. Qed.

(** C4, amended: [loading] is false if the URL is empty or made of white
    space only; else true on a first load without cached entry; else true
    under [forceRefresh]; else true if a cached entry exists, is stale and
    the subscription is connecting; else false if a cached entry exists
    and is not stale; else the subscription's own [loading].  For the
    empty URL it is false, whatever the cache, the state and the
    subscription. *)
Theorem loading_resolution
    (url : string) (initialLoad cachedExists forceRefresh cachedIsStale : bool)
    (sse : SseResult.t) (o : Options) (clk : Clock) (w : World) :
  shouldShowLoading url initialLoad cachedExists forceRefresh cachedIsStale sse =
    (if allWhiteSpace url then false
     else if initialLoad && negb cachedExists then true
     else if forceRefresh then true
     else if cachedExists && cachedIsStale && SseResult.isConnecting sse then true
     else if cachedExists && negb cachedIsStale then false
     else SseResult.loading sse) /\
  shouldShowLoading url initialLoad cachedExists forceRefresh cachedIsStale sse =
    (if allWhiteSpace url then false
     else Stated.loading url initialLoad cachedExists forceRefresh cachedIsStale sse) /\
  shouldShowLoading "" initialLoad cachedExists forceRefresh cachedIsStale sse = false /\
  loading (useCachedSSE "" o sse clk w).1 = false.
Proof.
  split_and!.
  - unfold shouldShowLoading. by rewrite noUrl_allWhiteSpace.
  - unfold shouldShowLoading, Stated.loading. rewrite noUrl_allWhiteSpace.
    destruct url as [|a s]; [done|]. done.
  - done.
  - by rewrite useCachedSSE_loading.
Qed.

(** The worded order and [resolveData] part on a live message that is the
    number 0: the message is there, yet the hook passes it over and returns
    the cached payload. *)
Lemma data_as_stated_fails_on_falsy_message :
  let cached := JsObj [("temp", JsNum 72)] in
  resolveData (JsNum 0) cached false = cached /\
  Stated.data (JsNum 0) cached false = JsNum 0.
Proof. split; reflexivity. Qed.

(** What [resolveData] computes: the live message if it is a truthy value
    and [forceRefresh] is not active; otherwise the cached payload if it is
    a truthy value and [forceRefresh] is not active; otherwise null.  That
    is the worded order with every falsy message or payload ([0], the empty
    string, [false]) read as absent; objects and arrays are never falsy.
    Under [forceRefresh] the result is null. *)
Theorem data_resolution
    (sseData cachedData : JsVal) (force : bool)
    (url : string) (o : Options) (sse : SseResult.t) (clk : Clock) (w : World) :
  resolveData sseData cachedData force =
    Stated.data (absentIfFalsy sseData) (absentIfFalsy cachedData) force /\
  resolveData sseData cachedData true = JsNull /\
  resolveData sseData cachedData false =
    (if truthy sseData then sseData
     else if truthy cachedData then cachedData else JsNull) /\
  (forall items fields,
      truthy (JsArr items) = Stated.available (JsArr items) /\
      truthy (JsObj fields) = Stated.available (JsObj fields) /\
      truthy JsNull = Stated.available JsNull) /\
  data (useCachedSSE url o sse clk w).1 =
    Stated.data (absentIfFalsy (SseResult.data sse))
      (absentIfFalsy
         (value (DataCacheService.get (atGet clk) (cacheKey o) (cache w))))
      (forceRefreshOf o) /\
  data (useCachedSSE url
          (mkOptions (onMessage o) (onError o) (onOpen o) (onClose o)
             (cacheKey o) (Some true)) sse clk w).1 = JsNull.
Proof.
  assert (forall s c f,
             resolveData s c f = Stated.data (absentIfFalsy s) (absentIfFalsy c) f)
    as Hres.
  { intros s c f. unfold resolveData, Stated.data, absentIfFalsy.
    destruct (truthy s) eqn:Hs, (truthy c) eqn:Hc, f; cbn;
      try done; by destruct s, c. }
  split_and!.
  - apply Hres.
  - unfold resolveData. by rewrite !andb_false_r.
  - unfold resolveData. by rewrite !andb_true_r.
  - done.
  - rewrite useCachedSSE_data. apply Hres.
  - rewrite useCachedSSE_data. unfold resolveData, forceRefreshOf; cbn.
    by rewrite !andb_false_r.
Qed.

End View.

(** ** Handlers and [refreshData] *)

Section Handlers.
Import UseCachedSSE.

(** What [get] returns is decided by the payload and the timestamp of the
    entry, not by its stored flag. *)
Lemma get_value (c : Cache) (k : string) (now : Z) :
  value (DataCacheService.get now k c) =
  match c !! k with
  | Some e =>
      if now - CacheEntry.timestamp e >? DataCacheService.CACHE_DURATION
      then JsNull else CacheEntry.data e
  | None => JsNull
  end.
Proof.
  destruct (get_cases c k now) as [[-> ->]|(e & -> & [[Hle ->]|(Hgt & -> & _)])].
  - done.
  - by rewrite gtb_false.
  - by rewrite gtb_true.
Qed.

Lemma get_value_after_markStale (c : Cache) (k : string) (now : Z) :
  value (DataCacheService.get now k (cacheAfter (DataCacheService.markStale k c)))
  = value (DataCacheService.get now k c).
Proof.
  rewrite !get_value, markStale_lookup, decide_True by done.
  by destruct (c !! k).
Qed.

Lemma refreshData_cache (o : Options) (w : World) :
  cache (refreshData o w) =
  cacheAfter (DataCacheService.markStale (cacheKey o) (cache w)).
Proof. reflexivity. Qed.

Lemma handleMessage_cache (o : Options) (now : Z) (d : JsVal) (w : World) :
  cache (handleMessage o now d w)
  = <[cacheKey o := CacheEntry.mk d now false]> (cache w).
Proof. unfold handleMessage, callBack. by destruct (onMessage o). Qed.

(** C7: [refreshData] sets the stored flag of the key's entry and re-arms
    the initial-load tracking; the entry stays in the cache with its
    payload and its timestamp, no other entry changes, and the view's
    [data] is what it was without the call, for every stream result and
    clock; the entry is replaced when the next message is handled. *)
Theorem refreshData_keeps_entry (o : Options) (w : World) (e : CacheEntry.t) :
  cache w !! cacheKey o = Some e ->
  cache (refreshData o w) !! cacheKey o
    = Some (CacheEntry.mk (CacheEntry.data e) (CacheEntry.timestamp e) true) /\
  (forall k, k <> cacheKey o -> cache (refreshData o w) !! k = cache w !! k) /\
  initialLoad (hook (refreshData o w)) = true /\
  isStale (hook (refreshData o w)) = true /\
  isCached (hook (refreshData o w)) = isCached (hook w) /\
  (forall url sse clk,
      data (useCachedSSE url o sse clk (refreshData o w)).1
      = data (useCachedSSE url o sse clk w).1) /\
  (forall now d,
      cache (handleMessage o now d (refreshData o w)) !! cacheKey o
      = Some (CacheEntry.mk d now false)).
Proof.
  intros Hk. split_and!.
  - rewrite refreshData_cache, markStale_lookup, decide_True, Hk by done.
    done.
  - intros k Hne. rewrite refreshData_cache, markStale_lookup.
    by rewrite decide_False.
  - done.
  - done.
  - done.
  - intros url sse clk. rewrite !useCachedSSE_data, refreshData_cache.
    by rewrite get_value_after_markStale.
  - intros now d. rewrite handleMessage_cache. apply lookup_insert_eq.
Qed.

Lemma refreshData_keeps_entry_witness :
  let o := mkOptions true true false false CACHE_KEYS.DASHBOARD None in
  let e := CacheEntry.mk (JsObj [("temp", JsNum 72)]) 1000 false in
  let w := mkWorld {[ CACHE_KEYS.DASHBOARD := e ]} initialHookState [] [] in
  let sse := SseResult.mk JsNull None false true true in
  data (useCachedSSE "http://localhost:8010/api/v1/stream" o sse
          (mkClock 2000 2000 2000) (refreshData o w)).1
  = JsObj [("temp", JsNum 72)].
Proof.
  intros o e w sse.
  destruct (refreshData_keeps_entry o w e) as (_ & _ & _ & _ & _ & Hd & _).
  - reflexivity.
  - rewrite Hd. reflexivity.
Defined.

(** C8: the handler of a stream error passes the event to the caller's
    [onError], when there is one, and does nothing else: the cache, the
    hook's state and the console are as before, so every entry is still
    stored and the hook returns the view it would have returned without
    the error. *)
Theorem handleError_leaves_cache (o : Options) (error : Event) (w : World)
    (url : string) (sse : SseResult.t) (clk : Clock) :
  calls (handleError o error w)
    = (if onError o then calls w ++ [CalledOnError error] else calls w) /\
  cache (handleError o error w) = cache w /\
  hook (handleError o error w) = hook w /\
  console (handleError o error w) = console w /\
  (useCachedSSE url o sse clk (handleError o error w)).1
    = (useCachedSSE url o sse clk w).1.
Proof.
  unfold handleError, callBack. by destruct (onError o).
Qed.

End Handlers.


(** * Further properties of the cache *)

Section CacheAlgebra.
Import CacheEntry DataCacheService.

Lemma has_value (c : Cache) (k : string) (now : Z) :
  value (has now k c) =
  match c !! k with
  | Some e => now - timestamp e <=? CACHE_DURATION
  | None => false
  end.
Proof. by rewrite has_eq. Qed.

Lemma isStale_value (c : Cache) (k : string) (now : Z) :
  value (DataCacheService.isStale now k c) =
  match c !! k with
  | Some e => now - timestamp e >? STALE_DURATION
  | None => false
  end.
Proof. by rewrite isStale_eq. Qed.

Lemma get_cache (c : Cache) (k : string) (now : Z) :
  cacheAfter (get now k c) =
  match c !! k with
  | Some e => if now - timestamp e >? CACHE_DURATION then delete k c else c
  | None => c
  end.
Proof.
  destruct (get_cases c k now) as [[-> ->]|(e & -> & [[Hle ->]|(Hgt & _ & ->)])].
  - done.
  - by rewrite gtb_false.
  - by rewrite gtb_true.
Qed.

(** X1: [clearAll] leaves nothing: [getStats] reports size 0 and empty
    listings, and for every key [has] and [isStale] answer false and [get]
    returns null, whatever the clock reads. *)
Theorem clearAll_empties (c : Cache) (k : string) (now : Z) :
  let c' := cacheAfter (clearAll c) in
  value (getStats now c') = mkStats 0 [] [] /\
  value (has now k c') = false /\
  value (DataCacheService.isStale now k c') = false /\
  get now k c' = (JsNull, c', [LogNoData k]).
Proof.
  intros c'. assert (c' = ∅) as -> by done. split_and!.
  - unfold getStats, value; cbn. by rewrite map_to_list_empty, map_size_empty.
  - by rewrite has_value, lookup_empty.
  - by rewrite isStale_value, lookup_empty.
  - apply get_absent, lookup_empty.
Qed.

(** X2: [clear k] takes out the entry of [k] and no other: afterwards [has
    k] is false and [get k] returns null at every clock reading, every other
    key reads as before, and the size reported by [getStats] is one less if
    [k] had an entry and the same if it had none. *)
Theorem clear_removes_only_key (c : Cache) (k : string) (now : Z) :
  let c' := cacheAfter (clear k c) in
  c' !! k = None /\
  value (has now k c') = false /\
  value (get now k c') = JsNull /\
  (forall k', k' <> k -> c' !! k' = c !! k') /\
  size (value (getStats now c'))
    = (if c !! k is Some _ then Nat.pred (size (value (getStats now c)))
       else size (value (getStats now c))) /\
  (c !! k = None -> c' = c).
Proof.
  intros c'. assert (c' = delete k c) as -> by done. split_and!.
  - apply lookup_delete_eq.
  - by rewrite has_value, lookup_delete_eq.
  - by rewrite get_absent by apply lookup_delete_eq.
  - intros k' Hne. by apply lookup_delete_ne.
  - unfold getStats, value; cbn. destruct (c !! k) as [e|] eqn:Hk.
    + by rewrite map_size_delete_Some by eauto.
    + by rewrite map_size_delete_None.
  - apply delete_id.
Qed.

Lemma set_cache (c : Cache) (k : string) (v : JsVal) (t : Z) :
  cacheAfter (set t k v c) = <[k := CacheEntry.mk v t false]> c.
Proof. reflexivity. Qed.

(** X3: the last [set] of a key wins: two [set]s of [k] leave the cache
    the second alone would leave, a [set] after [markStale] stores a clear
    flag, other keys are not touched, and the size reported by [getStats]
    grows by one exactly when [k] had no entry. *)
Theorem set_last_write_wins
    (c : Cache) (k : string) (v1 v2 : JsVal) (t1 t2 now : Z) :
  cacheAfter (set t2 k v2 (cacheAfter (set t1 k v1 c)))
    = cacheAfter (set t2 k v2 c) /\
  cacheAfter (set t2 k v2 (cacheAfter (markStale k c)))
    = cacheAfter (set t2 k v2 c) /\
  cacheAfter (set t2 k v2 c) !! k = Some (CacheEntry.mk v2 t2 false) /\
  (forall k', k' <> k -> cacheAfter (set t2 k v2 c) !! k' = c !! k') /\
  size (value (getStats now (cacheAfter (set t2 k v2 c))))
    = (if c !! k is Some _ then size (value (getStats now c))
       else S (size (value (getStats now c)))).
Proof.
  rewrite !set_cache. split_and!.
  - apply insert_insert_eq.
  - apply map_eq. intros k'. destruct (decide (k = k')) as [<-|Hne].
    + by rewrite !lookup_insert_eq.
    + rewrite !lookup_insert_ne by done.
      rewrite markStale_lookup. by rewrite decide_False.
  - apply lookup_insert_eq.
  - intros k' Hne. by apply lookup_insert_ne.
  - unfold getStats, value; cbn. destruct (c !! k) as [e|] eqn:Hk.
    + by rewrite map_size_insert_Some by eauto.
    + by rewrite map_size_insert_None.
Qed.

(** A call stores an entry under a key that had none only if it is a [set]
    of that key. *)
Lemma exec_creates_only_by_set (c : Cache) (k : string) (now : Z) (call : Call) :
  c !! k = None -> replaces k call = false -> exec now call c !! k = None.
Proof.
  intros Hk Hrep.
  destruct call as [k' v|k'|k'|k'|k'| | |k']; cbn [exec replaces] in *.
  - apply bool_decide_eq_false in Hrep. rewrite set_eq. unfold cacheAfter; cbn.
    by rewrite lookup_insert_ne.
  - rewrite get_cache. destruct (c !! k') as [e|]; [|done].
    destruct (_ >? _); [|done]. rewrite lookup_delete. by case_decide.
  - by rewrite has_eq.
  - by rewrite isStale_eq.
  - rewrite clear_eq. unfold cacheAfter; cbn. rewrite lookup_delete. by case_decide.
  - by rewrite clearAll_eq.
  - done.
  - rewrite markStale_lookup, Hk. by case_decide.
Qed.

(** X4: entries come from [set] alone: a key that has an entry after a
    sequence of calls had one before it, or some call of the sequence is a
    [set] of that key.  No [get], [has], [isStale], [markStale], [clear],
    [clearAll] or [getStats] creates an entry. *)
Theorem entries_come_from_set
    (calls : list (Z * Call)) (c : Cache) (k : string) (e : CacheEntry.t) :
  run calls c !! k = Some e ->
  is_Some (c !! k) \/ Exists (fun tc => replaces k tc.2 = true) calls.
Proof.
  revert c. induction calls as [|[now call] rest IH]; intros c Hrun; cbn in Hrun.
  - left. eauto.
  - destruct (IH _ Hrun) as [Hsome|Hex]; [|right; by apply Exists_cons_tl].
    destruct (replaces k call) eqn:Hrep; [right; by apply Exists_cons_hd|].
    destruct (c !! k) as [e0|] eqn:Hk; [left; eauto|].
    rewrite (exec_creates_only_by_set c k now call Hk Hrep) in Hsome.
    by destruct Hsome.
Qed.

Lemma entries_come_from_set_witness :
  let calls := [(10, CallMarkStale CACHE_KEYS.DASHBOARD);
                (20, CallSet CACHE_KEYS.DASHBOARD (JsNum 1));
                (30, CallGet CACHE_KEYS.SUCTION_SYSTEM)] in
  is_Some ((∅ : Cache) !! CACHE_KEYS.DASHBOARD) \/
  Exists (fun tc => replaces CACHE_KEYS.DASHBOARD tc.2 = true) calls.
Proof.
  intros calls.
  apply (entries_come_from_set calls ∅ CACHE_KEYS.DASHBOARD
           (CacheEntry.mk (JsNum 1) 20 false)).
  reflexivity.
Defined.

(** X5: when [has k] answers true, a [get k] at the same clock reading
    returns the stored payload, writes the "retrieved" line and leaves the
    cache as it is, and [isStale k] answers false. *)
Theorem has_true_get_serves (c : Cache) (k : string) (now : Z) :
  value (has now k c) = true ->
  exists e, c !! k = Some e /\
    get now k c = (data e, c, [LogRetrieved k (roundSeconds (now - timestamp e))]) /\
    value (DataCacheService.isStale now k c) = false.
Proof.
  rewrite has_value, isStale_value. destruct (c !! k) as [e|] eqn:Hk; [|done].
  intros Hle%Z.leb_le. exists e. split_and!; [done | by apply get_live |].
  apply gtb_false. unfold CACHE_DURATION, STALE_DURATION in *. lia.
Qed.

Lemma has_true_get_serves_witness :
  let c : Cache := {[ CACHE_KEYS.DASHBOARD := CacheEntry.mk (JsStr "ok") 1000 true ]} in
  exists e, c !! CACHE_KEYS.DASHBOARD = Some e /\
    get 301000 CACHE_KEYS.DASHBOARD c
      = (data e, c, [LogRetrieved CACHE_KEYS.DASHBOARD
                       (roundSeconds (301000 - timestamp e))]) /\
    value (DataCacheService.isStale 301000 CACHE_KEYS.DASHBOARD c) = false.
Proof.
  intros c. apply (has_true_get_serves c CACHE_KEYS.DASHBOARD 301000).
  reflexivity.
Defined.

(** X6: when [has k] answers false, a [get k] at the same clock reading
    returns null and leaves no entry under [k] (it drops an expired one),
    without touching any other key. *)
Theorem has_false_get_absent (c : Cache) (k : string) (now : Z) :
  value (has now k c) = false ->
  value (get now k c) = JsNull /\
  cacheAfter (get now k c) = delete k c /\
  forall k', k' <> k -> cacheAfter (get now k c) !! k' = c !! k'.
Proof.
  rewrite has_value, get_value, get_cache.
  destruct (c !! k) as [e|] eqn:Hk.
  - intros Hgt%Z.leb_gt. rewrite gtb_true by lia. split_and!; [done | done |].
    intros k' Hne. by apply lookup_delete_ne.
  - intros _. split_and!; [done | by rewrite delete_id | done].
Qed.

Lemma has_false_get_absent_witness :
  let c : Cache := {[ CACHE_KEYS.DASHBOARD := CacheEntry.mk (JsStr "ok") 1000 false ]} in
  value (get 301001 CACHE_KEYS.DASHBOARD c) = JsNull /\
  cacheAfter (get 301001 CACHE_KEYS.DASHBOARD c) = delete CACHE_KEYS.DASHBOARD c.
Proof.
  intros c.
  destruct (has_false_get_absent c CACHE_KEYS.DASHBOARD 301001) as (Hv & Hc & _).
  - reflexivity.
  - split; [exact Hv | exact Hc].
Defined.

End CacheAlgebra.

Section CacheInvariants.
Import CacheEntry DataCacheService.

(** X7: at one clock reading [has] and [isStale] never both answer true
    for a key: an entry old enough to be stale has expired. *)
Theorem has_excludes_isStale (c : Cache) (k : string) (now : Z) :
  value (has now k c) && value (DataCacheService.isStale now k c) = false.
Proof.
  rewrite has_value, isStale_value. destruct (c !! k) as [e|]; [|done].
  destruct (Z.leb_spec (now - timestamp e) CACHE_DURATION) as [Hle|Hgt]; [|done].
  cbn. apply gtb_false. unfold CACHE_DURATION, STALE_DURATION in *. lia.
Qed.

(** X8: a second [get] of a key at the same clock reading returns what the
    first returned and changes nothing more. *)
Theorem get_idempotent (c : Cache) (k : string) (now : Z) :
  value (get now k (cacheAfter (get now k c))) = value (get now k c) /\
  cacheAfter (get now k (cacheAfter (get now k c))) = cacheAfter (get now k c).
Proof.
  rewrite !get_value, !get_cache.
  destruct (c !! k) as [e|] eqn:Hk; [|by rewrite Hk].
  destruct (now - timestamp e >? CACHE_DURATION) eqn:Hage.
  - by rewrite lookup_delete_eq.
  - by rewrite Hk, Hage.
Qed.

Lemma roundSeconds_bounds (ms : Z) :
  1000 * roundSeconds ms - 500 <= ms < 1000 * roundSeconds ms + 500.
Proof.
  unfold roundSeconds.
  pose proof (Z.div_mod (ms + 500) 1000 ltac:(lia)) as Hdm.
  pose proof (Z.mod_pos_bound (ms + 500) 1000 ltac:(lia)) as Hm.
  lia.
Qed.

(** X10: the age [getStats] reports for an entry is its age in seconds
    rounded to the nearest second (within half a second of it), and it is
    not negative when the entry was stored no later than the clock reads. *)
Theorem getStats_age_rounding (c : Cache) (now : Z) (se : StatsEntry) :
  se ∈ entries (value (getStats now c)) ->
  exists e, c !! se_key se = Some e /\
    se_isStale se = CacheEntry.isStale e /\
    1000 * se_age se - 500 <= now - timestamp e < 1000 * se_age se + 500 /\
    (timestamp e <= now -> 0 <= se_age se).
Proof.
  intros (k & e & Hk & ->)%getStats_entries. cbn. exists e.
  pose proof (roundSeconds_bounds (now - timestamp e)). split_and!; [done | done | lia | lia | lia].
Qed.

Lemma getStats_age_rounding_witness :
  let c : Cache := {[ CACHE_KEYS.DASHBOARD := CacheEntry.mk (JsStr "ok") 1000 false ]} in
  exists e, c !! CACHE_KEYS.DASHBOARD = Some e /\
    false = CacheEntry.isStale e /\
    1000 * 2 - 500 <= 2500 - timestamp e < 1000 * 2 + 500 /\
    (timestamp e <= 2500 -> 0 <= 2).
Proof.
  intros c.
  apply (getStats_age_rounding c 2500 (mkStatsEntry CACHE_KEYS.DASHBOARD 2 false)).
  apply getStats_entries.
  exists CACHE_KEYS.DASHBOARD, (CacheEntry.mk (JsStr "ok") 1000 false).
  split; reflexivity.
Defined.

(** A call that names another key, or [getStats], leaves the entry of [k]
    as it is, stored flag included. *)
Lemma exec_untouched (c : Cache) (k : string) (now : Z) (call : Call) :
  touches k call = false -> exec now call c !! k = c !! k.
Proof.
  intros Ht.
  destruct call as [k' v|k'|k'|k'|k'| | |k']; cbn [exec touches callKey] in *;
    try discriminate;
    try (apply bool_decide_eq_false in Ht;
         assert (k' <> k) as Hne by congruence).
  - rewrite set_cache. by apply lookup_insert_ne.
  - by apply get_other.
  - by rewrite has_eq.
  - by rewrite isStale_eq.
  - rewrite clear_eq. unfold cacheAfter; cbn. by apply lookup_delete_ne.
  - done.
  - rewrite markStale_lookup. by rewrite decide_False.
Qed.

(** X11: keys are independent: a sequence of calls none of which names [k]
    or is [clearAll] leaves the entry of [k] exactly as it was (payload,
    timestamp and stored flag), or leaves [k] without entry if it had none. *)
Theorem untouched_key_unchanged
    (calls : list (Z * Call)) (c : Cache) (k : string) :
  Forall (fun tc => touches k tc.2 = false) calls ->
  run calls c !! k = c !! k.
Proof.
  intros Hall. revert c.
  induction Hall as [|[now call] rest Hcall _ IH]; intros c; cbn in *; [done|].
  by rewrite IH, exec_untouched.
Qed.

Lemma untouched_key_unchanged_witness :
  let e := CacheEntry.mk (JsNum 3) 0 true in
  let c : Cache := {[ CACHE_KEYS.DASHBOARD := e ]} in
  run [(400000, CallGet CACHE_KEYS.SUCTION_SYSTEM);
       (400001, CallSet CACHE_KEYS.SUCTION_SYSTEM (JsNum 9));
       (400002, CallClear CACHE_KEYS.PREDICTIVE_ANALYSIS);
       (2400000, CallGet CACHE_KEYS.SUCTION_SYSTEM)] c !! CACHE_KEYS.DASHBOARD
  = c !! CACHE_KEYS.DASHBOARD.
Proof.
  intros e c. apply untouched_key_unchanged.
  repeat constructor.
Defined.

End CacheInvariants.

(** * Further properties of the coordinator *)

Section Renders.
Import UseCachedSSE.

Lemma useCachedSSE_world (url : string) (o : Options) (sse : SseResult.t)
    (clk : Clock) (w : World) :
  let r := DataCacheService.get (atGet clk) (cacheKey o) (cache w) in
  (useCachedSSE url o sse clk w).2 =
  mkWorld (cacheAfter r) (hook w) (console w ++ logged r) (calls w).
Proof.
  intros r. unfold useCachedSSE, callCache. cbn [fst snd cache hook console calls].
  fold r. rewrite !has_eq. unfold cacheAfter at 2 3 4, logged at 2 3; cbn [fst snd].
  rewrite !isStale_eq. unfold cacheAfter at 2, logged at 2; cbn [fst snd].
  by rewrite !app_nil_r.
Qed.


(** X13: with an entry that has not expired at any of the three clock
    readings of the call, and no [forceRefresh], the hook shows no loading,
    whatever the URL, the stream and its own state say, and its [data] is
    the live message if that is truthy, else the cached payload (null if
    that is falsy); the cache is not changed. *)
Theorem render_fresh_entry (url : string) (o : Options) (sse : SseResult.t)
    (clk : Clock) (w : World) (e : CacheEntry.t) :
  cache w !! cacheKey o = Some e ->
  atGet clk - CacheEntry.timestamp e <= DataCacheService.CACHE_DURATION ->
  atHas clk - CacheEntry.timestamp e <= DataCacheService.CACHE_DURATION ->
  atIsStale clk - CacheEntry.timestamp e <= DataCacheService.CACHE_DURATION ->
  forceRefreshOf o = false ->
  loading (useCachedSSE url o sse clk w).1 = false /\
  data (useCachedSSE url o sse clk w).1
    = (if truthy (SseResult.data sse) then SseResult.data sse
       else absentIfFalsy (CacheEntry.data e)) /\
  cache (useCachedSSE url o sse clk w).2 = cache w.
Proof.
  intros He Hget Hhas Hstale Hforce.
  assert (cacheAfter (DataCacheService.get (atGet clk) (cacheKey o) (cache w))
          = cache w) as Hc by (by rewrite (get_live _ _ _ e)).
  split_and!.
  - rewrite useCachedSSE_loading. cbn zeta. rewrite Hc, Hforce.
    rewrite has_eq, isStale_eq. unfold value; cbn [fst]. rewrite He.
    assert ((atHas clk - CacheEntry.timestamp e <=? DataCacheService.CACHE_DURATION)
            = true) as -> by (by apply Z.leb_le).
    rewrite gtb_false
      by (unfold DataCacheService.CACHE_DURATION, DataCacheService.STALE_DURATION in *; lia).
    unfold shouldShowLoading. by destruct (noUrl url), (initialLoad (hook w)).
  - rewrite useCachedSSE_data, Hforce, (get_live _ _ _ e) by done.
    unfold value, resolveData, absentIfFalsy; cbn [fst].
    by destruct (truthy (SseResult.data sse)), (truthy (CacheEntry.data e)).
  - by rewrite useCachedSSE_world.
Qed.

Lemma render_fresh_entry_witness :
  let o := mkOptions true true false false CACHE_KEYS.DASHBOARD None in
  let e := CacheEntry.mk (JsObj [("temp", JsNum 72)]) 1000 false in
  let w := mkWorld {[ CACHE_KEYS.DASHBOARD := e ]} initialHookState [] [] in
  let sse := SseResult.mk JsNull None false true true in
  let clk := mkClock 2000 2001 2002 in
  loading (useCachedSSE "http://host/stream" o sse clk w).1 = false /\
  data (useCachedSSE "http://host/stream" o sse clk w).1 = JsObj [("temp", JsNum 72)].
Proof.
  intros o e w sse clk.
  destruct (render_fresh_entry "http://host/stream" o sse clk w e)
    as (Hl & Hd & _).
  - reflexivity.
  - vm_compute. discriminate.
  - vm_compute. discriminate.
  - vm_compute. discriminate.
  - reflexivity.
  - split; [exact Hl | exact Hd].
Defined.

(** X14: when [has] would answer false for the hook's key at the first
    clock reading (no entry, or an expired one), the call leaves no entry
    under the key, its [data] is the live message if that is truthy and
    [forceRefresh] is off, else null, and its [loading] is false for a
    blank URL, else true on an initial load, else true under
    [forceRefresh], else the subscription's own flag. *)
Theorem render_without_entry (url : string) (o : Options) (sse : SseResult.t)
    (clk : Clock) (w : World) :
  value (DataCacheService.has (atGet clk) (cacheKey o) (cache w)) = false ->
  cache (useCachedSSE url o sse clk w).2 !! cacheKey o = None /\
  data (useCachedSSE url o sse clk w).1
    = (if forceRefreshOf o then JsNull else absentIfFalsy (SseResult.data sse)) /\
  loading (useCachedSSE url o sse clk w).1
    = (if allWhiteSpace url then false
       else if initialLoad (hook w) then true
       else if forceRefreshOf o then true
       else SseResult.loading sse).
Proof.
  intros Hhas.
  assert (value (DataCacheService.get (atGet clk) (cacheKey o) (cache w)) = JsNull /\
          cacheAfter (DataCacheService.get (atGet clk) (cacheKey o) (cache w))
            !! cacheKey o = None) as [Hv Hc].
  { revert Hhas. rewrite has_value, get_value, get_cache.
    destruct (cache w !! cacheKey o) as [e|] eqn:He; [|done].
    intros Hgt%Z.leb_gt. rewrite gtb_true by lia.
    split; [done | apply lookup_delete_eq]. }
  split_and!.
  - by rewrite useCachedSSE_world.
  - rewrite useCachedSSE_data, Hv. unfold resolveData, absentIfFalsy; cbn.
    destruct (forceRefreshOf o); [by rewrite andb_false_r|].
    rewrite andb_true_r. by destruct (truthy (SseResult.data sse)).
  - rewrite useCachedSSE_loading. cbn zeta.
    rewrite has_value, isStale_value, Hc.
    unfold shouldShowLoading. rewrite noUrl_allWhiteSpace.
    by destruct (allWhiteSpace url), (initialLoad (hook w)), (forceRefreshOf o).
Qed.

Lemma render_without_entry_witness :
  let o := mkOptions true true false false CACHE_KEYS.DASHBOARD None in
  let w := mkWorld ∅ initialHookState [] [] in
  let sse := SseResult.mk JsNull None false true false in
  loading (useCachedSSE "http://host/stream" o sse (mkClock 5 5 5) w).1 = true /\
  data (useCachedSSE "http://host/stream" o sse (mkClock 5 5 5) w).1 = JsNull.
Proof.
  intros o w sse.
  destruct (render_without_entry "http://host/stream" o sse (mkClock 5 5 5) w)
    as (_ & Hd & Hl).
  - reflexivity.
  - split; [exact Hl | exact Hd].
Defined.

(** X15: unless the clock moves by 25 minutes or more between the reading
    of [has] and the reading of [isStale] within one call, the hook never
    sees an entry that both exists and is stale, so the rule "stale and
    connecting" of [shouldShowLoading] never fires: with a cached entry
    the hook shows loading only under [forceRefresh]. *)
Theorem render_never_sees_stale_entry (url : string) (o : Options)
    (sse : SseResult.t) (clk : Clock) (w : World) :
  atIsStale clk - atHas clk
    < DataCacheService.STALE_DURATION - DataCacheService.CACHE_DURATION ->
  let c1 := cacheAfter (DataCacheService.get (atGet clk) (cacheKey o) (cache w)) in
  let cachedExists := value (DataCacheService.has (atHas clk) (cacheKey o) c1) in
  let cachedIsStale := value (DataCacheService.isStale (atIsStale clk) (cacheKey o) c1) in
  cachedExists && cachedIsStale = false /\
  loading (useCachedSSE url o sse clk w).1
    = (if allWhiteSpace url then false
       else if initialLoad (hook w) && negb cachedExists then true
       else if forceRefreshOf o then true
       else if cachedExists then false
       else SseResult.loading sse).
Proof.
  intros Hclk c1 cachedExists cachedIsStale.
  assert (cachedExists && cachedIsStale = false) as Hboth.
  { unfold cachedExists, cachedIsStale. rewrite has_value, isStale_value.
    destruct (c1 !! cacheKey o) as [e|]; [|done].
    destruct (Z.leb_spec (atHas clk - CacheEntry.timestamp e)
                DataCacheService.CACHE_DURATION) as [Hle|Hgt]; [|done].
    cbn. apply gtb_false. lia. }
  split; [done|].
  rewrite useCachedSSE_loading. cbn zeta. fold c1. fold cachedExists. fold cachedIsStale.
  unfold shouldShowLoading. rewrite noUrl_allWhiteSpace.
  destruct cachedExists, cachedIsStale; try discriminate;
    by destruct (allWhiteSpace url), (initialLoad (hook w)), (forceRefreshOf o).
Qed.

Lemma render_never_sees_stale_entry_witness :
  let o := mkOptions true true false false CACHE_KEYS.SUCTION_SYSTEM None in
  let e := CacheEntry.mk (JsNum 1) 0 false in
  let w := mkWorld {[ CACHE_KEYS.SUCTION_SYSTEM := e ]}
             (mkHookState true false false true) [] [] in
  let sse := SseResult.mk JsNull None false true true in
  loading (useCachedSSE "http://host/stream" o sse (mkClock 100 200 300) w).1 = false.
Proof.
  intros o e w sse.
  destruct (render_never_sees_stale_entry "http://host/stream" o sse
              (mkClock 100 200 300) w) as (_ & Hl).
  - vm_compute. reflexivity.
  - exact Hl.
Defined.

End Renders.

Section Transitions.
Import UseCachedSSE.

(** The three reads of a call of the hook, on an entry that has not
    expired at any of the clock readings. *)
Lemma fresh_reads (c : Cache) (k : string) (e : CacheEntry.t) (clk : Clock) :
  c !! k = Some e ->
  atGet clk - CacheEntry.timestamp e <= DataCacheService.CACHE_DURATION ->
  atHas clk - CacheEntry.timestamp e <= DataCacheService.CACHE_DURATION ->
  atIsStale clk - CacheEntry.timestamp e <= DataCacheService.CACHE_DURATION ->
  value (DataCacheService.get (atGet clk) k c) = CacheEntry.data e /\
  cacheAfter (DataCacheService.get (atGet clk) k c) = c /\
  value (DataCacheService.has (atHas clk) k c) = true /\
  value (DataCacheService.isStale (atIsStale clk) k c) = false.
Proof.
  intros He Hg Hh Hs.
  rewrite get_value, get_cache, has_value, isStale_value, He.
  rewrite (gtb_false _ DataCacheService.CACHE_DURATION) by done.
  rewrite (gtb_false _ DataCacheService.STALE_DURATION)
    by (unfold DataCacheService.CACHE_DURATION, DataCacheService.STALE_DURATION in *; lia).
  split_and!; [done | done | by apply Z.leb_le | done].
Qed.

Lemma view_of_fresh_reads (url : string) (o : Options) (sse : SseResult.t)
    (clk : Clock) (w : World) (e : CacheEntry.t) :
  cache w !! cacheKey o = Some e ->
  atGet clk - CacheEntry.timestamp e <= DataCacheService.CACHE_DURATION ->
  atHas clk - CacheEntry.timestamp e <= DataCacheService.CACHE_DURATION ->
  atIsStale clk - CacheEntry.timestamp e <= DataCacheService.CACHE_DURATION ->
  loading (useCachedSSE url o sse clk w).1
    = (if noUrl url then false else forceRefreshOf o) /\
  data (useCachedSSE url o sse clk w).1
    = resolveData (SseResult.data sse) (CacheEntry.data e) (forceRefreshOf o) /\
  viewIsCached (useCachedSSE url o sse clk w).1 = isCached (hook w) /\
  viewIsStale (useCachedSSE url o sse clk w).1 = isStale (hook w).
Proof.
  intros He Hg Hh Hs.
  destruct (fresh_reads _ _ _ _ He Hg Hh Hs) as (Hv & Hc & Hhas & Hst).
  split_and!.
  - rewrite useCachedSSE_loading. cbn zeta. rewrite Hc, Hhas, Hst.
    unfold shouldShowLoading.
    by destruct (noUrl url), (initialLoad (hook w)), (forceRefreshOf o).
  - by rewrite useCachedSSE_data, Hv.
  - done.
  - done.
Qed.

Lemma handleMessage_hook (o : Options) (now : Z) (d : JsVal) (w : World) :
  hook (handleMessage o now d w)
  = mkHookState true false (initialLoad (hook w)) (hasConnectedRef (hook w)).
Proof. unfold handleMessage, callBack. by destruct (onMessage o). Qed.

(** X16: a handled message is written through: the entry of the hook's key
    becomes the message with the clock reading and a clear flag, no other
    key changes, and the caller's [onMessage] is called if there is one;
    a call of the hook within the expiry window and without
    [forceRefresh] then shows no loading, reports [isCached] and not
    [isStale], and returns the stream's message if that is truthy, else
    the message just cached. *)
Theorem message_write_through (url : string) (o : Options) (sse : SseResult.t)
    (clk : Clock) (w : World) (now : Z) (d : JsVal) :
  atGet clk - now <= DataCacheService.CACHE_DURATION ->
  atHas clk - now <= DataCacheService.CACHE_DURATION ->
  atIsStale clk - now <= DataCacheService.CACHE_DURATION ->
  forceRefreshOf o = false ->
  let w1 := handleMessage o now d w in
  cache w1 !! cacheKey o = Some (CacheEntry.mk d now false) /\
  (forall k, k <> cacheKey o -> cache w1 !! k = cache w !! k) /\
  calls w1 = (if onMessage o then calls w ++ [CalledOnMessage d] else calls w) /\
  loading (useCachedSSE url o sse clk w1).1 = false /\
  data (useCachedSSE url o sse clk w1).1
    = (if truthy (SseResult.data sse) then SseResult.data sse else absentIfFalsy d) /\
  viewIsCached (useCachedSSE url o sse clk w1).1 = true /\
  viewIsStale (useCachedSSE url o sse clk w1).1 = false.
Proof.
  intros Hg Hh Hs Hforce w1.
  assert (cache w1 !! cacheKey o = Some (CacheEntry.mk d now false)) as He
    by (unfold w1; rewrite handleMessage_cache; apply lookup_insert_eq).
  destruct (view_of_fresh_reads url o sse clk w1 _ He Hg Hh Hs)
    as (Hl & Hd & Hic & His).
  split_and!.
  - done.
  - intros k Hne. unfold w1. rewrite handleMessage_cache. by apply lookup_insert_ne.
  - unfold w1, handleMessage, callBack. by destruct (onMessage o).
  - rewrite Hl, Hforce. by destruct (noUrl url).
  - rewrite Hd, Hforce. unfold resolveData, absentIfFalsy; cbn.
    by destruct (truthy (SseResult.data sse)), (truthy d).
  - rewrite Hic. unfold w1. by rewrite handleMessage_hook.
  - rewrite His. unfold w1. by rewrite handleMessage_hook.
Qed.

Lemma message_write_through_witness :
  let o := mkOptions true true false false CACHE_KEYS.DASHBOARD None in
  let w := mkWorld ∅ initialHookState [] [] in
  let sse := SseResult.mk JsNull None true false false in
  let d := JsObj [("temp", JsNum 72)] in
  let w1 := handleMessage o 1000 d w in
  loading (useCachedSSE "http://host/stream" o sse (mkClock 1000 1000 1001) w1).1
    = false /\
  data (useCachedSSE "http://host/stream" o sse (mkClock 1000 1000 1001) w1).1 = d.
Proof.
  intros o w sse d w1.
  destruct (message_write_through "http://host/stream" o sse
              (mkClock 1000 1000 1001) w 1000 d) as (_ & _ & _ & Hl & Hd & _).
  - vm_compute. discriminate.
  - vm_compute. discriminate.
  - vm_compute. discriminate.
  - reflexivity.
  - split; [exact Hl | exact Hd].
Defined.

(** X17: after [refreshData] on an entry that has not expired, and without
    [forceRefresh], the hook reports [isStale] from its own state, yet
    shows no loading, whatever the stream is doing: the cache still
    answers that the entry exists and is not stale.  Its [data] is the
    live message if that is truthy, else the cached payload if that is
    truthy, else null. *)
Theorem refreshData_shows_no_loading (url : string) (o : Options)
    (sse : SseResult.t) (clk : Clock) (w : World) (e : CacheEntry.t) :
  cache w !! cacheKey o = Some e ->
  atGet clk - CacheEntry.timestamp e <= DataCacheService.CACHE_DURATION ->
  atHas clk - CacheEntry.timestamp e <= DataCacheService.CACHE_DURATION ->
  atIsStale clk - CacheEntry.timestamp e <= DataCacheService.CACHE_DURATION ->
  forceRefreshOf o = false ->
  let w1 := refreshData o w in
  viewIsStale (useCachedSSE url o sse clk w1).1 = true /\
  loading (useCachedSSE url o sse clk w1).1 = false /\
  data (useCachedSSE url o sse clk w1).1
    = (if truthy (SseResult.data sse) then SseResult.data sse
       else absentIfFalsy (CacheEntry.data e)) /\
  value (DataCacheService.isStale (atIsStale clk) (cacheKey o) (cache w1)) = false.
Proof.
  intros He Hg Hh Hs Hforce w1.
  assert (cache w1 !! cacheKey o = Some (CacheEntry.setStale e)) as He1.
  { unfold w1. rewrite refreshData_cache, markStale_lookup, decide_True by done.
    by rewrite He. }
  destruct (view_of_fresh_reads url o sse clk w1 _ He1 Hg Hh Hs)
    as (Hl & Hd & _ & His).
  destruct (fresh_reads _ _ _ _ He1 Hg Hh Hs) as (_ & _ & _ & Hst).
  split_and!.
  - by rewrite His.
  - rewrite Hl, Hforce. by destruct (noUrl url).
  - rewrite Hd, Hforce. unfold resolveData, absentIfFalsy; cbn.
    by destruct (truthy (SseResult.data sse)), (truthy (CacheEntry.data e)).
  - done.
Qed.

Lemma refreshData_shows_no_loading_witness :
  let o := mkOptions true true false false CACHE_KEYS.DASHBOARD None in
  let e := CacheEntry.mk (JsObj [("temp", JsNum 72)]) 1000 false in
  let w := mkWorld {[ CACHE_KEYS.DASHBOARD := e ]}
             (mkHookState true false false true) [] [] in
  let sse := SseResult.mk JsNull None false true true in
  let w1 := refreshData o w in
  viewIsStale (useCachedSSE "http://host/stream" o sse (mkClock 2000 2000 2000) w1).1
    = true /\
  loading (useCachedSSE "http://host/stream" o sse (mkClock 2000 2000 2000) w1).1
    = false.
Proof.
  intros o e w sse w1.
  destruct (refreshData_shows_no_loading "http://host/stream" o sse
              (mkClock 2000 2000 2000) w e) as (Hs & Hl & _).
  - reflexivity.
  - vm_compute. discriminate.
  - vm_compute. discriminate.
  - vm_compute. discriminate.
  - reflexivity.
  - split; [exact Hs | exact Hl].
Defined.

Lemma cacheEffect_forced (o : Options) (cd : JsVal) (cs : bool) (w : World) :
  forceRefreshOf o = true ->
  cacheEffect o cd cs w =
  mkWorld (delete (cacheKey o) (cache w))
    (mkHookState false false true (hasConnectedRef (hook w)))
    (console w ++ [LogForceRefresh (cacheKey o)] ++ [LogCleared (cacheKey o)])
    (calls w).
Proof.
  intros Hf. unfold cacheEffect. rewrite Hf, andb_false_r.
  unfold callCache, setHook, consoleLog; cbn. by rewrite <- app_assoc.
Qed.

(** X18: under [forceRefresh] the hook's cache effect removes the entry of
    its key and of no other, clears [isCached] and [isStale] and re-arms
    the initial load; the next call of the hook, still under
    [forceRefresh], returns null as [data] and shows loading exactly when
    the URL is not blank. *)
Theorem forceRefresh_clears_entry (url : string) (o : Options)
    (sse : SseResult.t) (clk : Clock) (w : World) (cd : JsVal) (cs : bool) :
  forceRefreshOf o = true ->
  let w1 := cacheEffect o cd cs w in
  cache w1 !! cacheKey o = None /\
  (forall k, k <> cacheKey o -> cache w1 !! k = cache w !! k) /\
  isCached (hook w1) = false /\
  isStale (hook w1) = false /\
  initialLoad (hook w1) = true /\
  data (useCachedSSE url o sse clk w1).1 = JsNull /\
  loading (useCachedSSE url o sse clk w1).1 = negb (allWhiteSpace url).
Proof.
  intros Hf w1. unfold w1. rewrite cacheEffect_forced by done.
  set (w2 := mkWorld _ _ _ _).
  assert (cache w2 !! cacheKey o = None) as Hnone by apply lookup_delete_eq.
  split_and!; try done.
  - intros k Hne. by apply lookup_delete_ne.
  - rewrite useCachedSSE_data, Hf. unfold resolveData. by rewrite !andb_false_r.
  - rewrite useCachedSSE_loading. cbn zeta.
    rewrite get_cache, has_value, isStale_value, Hnone, Hnone.
    unfold shouldShowLoading. rewrite noUrl_allWhiteSpace.
    by destruct (allWhiteSpace url).
Qed.

Lemma forceRefresh_clears_entry_witness :
  let o := mkOptions true true false false CACHE_KEYS.DASHBOARD (Some true) in
  let e := CacheEntry.mk (JsObj [("temp", JsNum 72)]) 1000 false in
  let w := mkWorld {[ CACHE_KEYS.DASHBOARD := e ]}
             (mkHookState true false false true) [] [] in
  let sse := SseResult.mk (JsNum 5) None true false false in
  let w1 := cacheEffect o JsNull false w in
  cache w1 !! CACHE_KEYS.DASHBOARD = None /\
  loading (useCachedSSE "http://host/stream" o sse (mkClock 2000 2000 2000) w1).1
    = true.
Proof.
  intros o e w sse w1.
  destruct (forceRefresh_clears_entry "http://host/stream" o sse
              (mkClock 2000 2000 2000) w JsNull false)
    as (Hc & _ & _ & _ & _ & _ & Hl).
  - reflexivity.
  - split; [exact Hc | exact Hl].
Defined.

(** Without [forceRefresh] the hook's cache effect never writes the cache
    nor calls the caller. *)
Lemma cacheEffect_unforced (o : Options) (w : World) (cd : JsVal) (cs : bool) :
  forceRefreshOf o = false ->
  cache (cacheEffect o cd cs w) = cache w /\
  calls (cacheEffect o cd cs w) = calls w /\
  hook (cacheEffect o cd cs w)
    = (if truthy cd
       then mkHookState true cs false (hasConnectedRef (hook w))
       else hook w).
Proof.
  intros Hf. unfold cacheEffect. rewrite Hf, andb_true_r.
  by destruct (truthy cd).
Qed.

(** X19: mounting on a cached entry that has not expired and whose payload
    is truthy, without [forceRefresh]: the first call of the hook already
    returns the cached payload (the live message if there is a truthy one)
    and shows no loading; the cache effect that follows, run on what that
    call read, leaves the cache as it is, marks the hook as cached and not
    stale and ends the initial load; the next call returns the same
    [data], still without loading. *)
Theorem mount_serves_fresh_cache (url : string) (o : Options)
    (sse : SseResult.t) (clk : Clock) (w : World) (e : CacheEntry.t) :
  cache w !! cacheKey o = Some e ->
  truthy (CacheEntry.data e) = true ->
  atGet clk - CacheEntry.timestamp e <= DataCacheService.CACHE_DURATION ->
  atHas clk - CacheEntry.timestamp e <= DataCacheService.CACHE_DURATION ->
  atIsStale clk - CacheEntry.timestamp e <= DataCacheService.CACHE_DURATION ->
  forceRefreshOf o = false ->
  let first := useCachedSSE url o sse clk w in
  let cachedData := value (DataCacheService.get (atGet clk) (cacheKey o) (cache w)) in
  let cachedIsStale :=
    value (DataCacheService.isStale (atIsStale clk) (cacheKey o) (cache first.2)) in
  let w2 := cacheEffect o cachedData cachedIsStale first.2 in
  data first.1
    = (if truthy (SseResult.data sse) then SseResult.data sse else CacheEntry.data e) /\
  loading first.1 = false /\
  cache w2 = cache w /\
  hook w2 = mkHookState true false false (hasConnectedRef (hook w)) /\
  data (useCachedSSE url o sse clk w2).1 = data first.1 /\
  loading (useCachedSSE url o sse clk w2).1 = false /\
  viewIsCached (useCachedSSE url o sse clk w2).1 = true /\
  viewIsStale (useCachedSSE url o sse clk w2).1 = false.
Proof.
  intros He Ht Hg Hh Hs Hf first cachedData cachedIsStale w2.
  destruct (fresh_reads _ _ _ _ He Hg Hh Hs) as (Hv & Hc & _ & Hst).
  destruct (view_of_fresh_reads url o sse clk w _ He Hg Hh Hs) as (Hl & Hd & _ & _).
  assert (cache first.2 = cache w) as Hc1
    by (unfold first; by rewrite useCachedSSE_world).
  assert (hook first.2 = hook w) as Hh1
    by (unfold first; by rewrite useCachedSSE_world).
  destruct (cacheEffect_unforced o first.2 cachedData cachedIsStale Hf)
    as (Hc2 & _ & Hh2).
  fold w2 in Hc2, Hh2.
  assert (cachedData = CacheEntry.data e) as HcD by done.
  assert (cachedIsStale = false) as HcS by (unfold cachedIsStale; by rewrite Hc1).
  rewrite HcD, Ht, HcS, Hh1 in Hh2. rewrite Hc1 in Hc2.
  assert (cache w2 !! cacheKey o = Some e) as He2 by (by rewrite Hc2).
  destruct (view_of_fresh_reads url o sse clk w2 _ He2 Hg Hh Hs)
    as (Hl2 & Hd2 & Hic2 & His2).
  assert (resolveData (SseResult.data sse) (CacheEntry.data e) false
          = (if truthy (SseResult.data sse) then SseResult.data sse
             else CacheEntry.data e)) as Hres.
  { unfold resolveData. rewrite Ht. by destruct (truthy (SseResult.data sse)). }
  split_and!.
  - unfold first. by rewrite Hd, Hf.
  - unfold first. rewrite Hl, Hf. by destruct (noUrl url).
  - done.
  - done.
  - unfold first. by rewrite Hd2, Hd.
  - rewrite Hl2, Hf. by destruct (noUrl url).
  - by rewrite Hic2, Hh2.
  - by rewrite His2, Hh2.
Qed.

Lemma mount_serves_fresh_cache_witness :
  let o := mkOptions true true false false CACHE_KEYS.SUCTION_SYSTEM None in
  let e := CacheEntry.mk (JsObj [("flow", JsNum 3)]) 1000 false in
  let w := mkWorld {[ CACHE_KEYS.SUCTION_SYSTEM := e ]} initialHookState [] [] in
  let sse := SseResult.mk JsNull None false true true in
  let clk := mkClock 5000 5000 5001 in
  data (useCachedSSE "http://host/stream" o sse clk w).1 = JsObj [("flow", JsNum 3)] /\
  loading (useCachedSSE "http://host/stream" o sse clk w).1 = false.
Proof.
  intros o e w sse clk.
  destruct (mount_serves_fresh_cache "http://host/stream" o sse clk w e)
    as (Hd & Hl & _).
  - reflexivity.
  - reflexivity.
  - vm_compute. discriminate.
  - vm_compute. discriminate.
  - vm_compute. discriminate.
  - reflexivity.
  - split; [exact Hd | exact Hl].
Defined.

End Transitions.

(** * Properties of the dashboard's icon helpers *)

Section Icons.
Import Dashboard.

Lemma toInt32_range (z : Z) : - 2 ^ 31 <= toInt32 z < 2 ^ 31.
Proof.
  unfold toInt32. pose proof (Z.mod_pos_bound (z + 2 ^ 31) (2 ^ 32) ltac:(lia)). lia.
Qed.

Lemma toInt32_mod (z : Z) : toInt32 z `mod` 2 ^ 32 = z `mod` 2 ^ 32.
Proof.
  unfold toInt32. rewrite Zminus_mod_idemp_l. f_equal. lia.
Qed.

Lemma toInt32_congr (a b : Z) :
  a `mod` 2 ^ 32 = b `mod` 2 ^ 32 -> toInt32 a = toInt32 b.
Proof.
  intros H. unfold toInt32. f_equal.
  by rewrite (Zplus_mod a), H, <- Zplus_mod.
Qed.

Lemma toInt32_fixed (z : Z) : - 2 ^ 31 <= z < 2 ^ 31 -> toInt32 z = z.
Proof.
  intros H. unfold toInt32. rewrite Z.mod_small by lia. lia.
Qed.

(** One turn of the loop of [hashString] is [31 * hash + code] modulo
    2^32. *)
Lemma hash_step_mod (h c : Z) :
  (shl32 h 5 - h + c) `mod` 2 ^ 32 = (31 * h + c) `mod` 2 ^ 32.
Proof.
  unfold shl32. rewrite Z.shiftl_mul_pow2 by lia.
  rewrite <- Zplus_mod_idemp_l, <- Zminus_mod_idemp_l, toInt32_mod.
  rewrite <- Zmult_mod_idemp_l, toInt32_mod, Zmult_mod_idemp_l.
  rewrite Zminus_mod_idemp_l, Zplus_mod_idemp_l. f_equal. lia.
Qed.

Lemma horner31_congr (s : string) (h1 h2 : Z) :
  h1 `mod` 2 ^ 32 = h2 `mod` 2 ^ 32 ->
  horner31 h1 s `mod` 2 ^ 32 = horner31 h2 s `mod` 2 ^ 32.
Proof.
  revert h1 h2. induction s as [|a s IH]; intros h1 h2 H; cbn; [done|].
  apply IH.
  rewrite <- Zplus_mod_idemp_l, <- Zmult_mod_idemp_r, H.
  by rewrite Zmult_mod_idemp_r, Zplus_mod_idemp_l.
Qed.

Lemma hashLoop_horner31 (s : string) (h : Z) :
  toInt32 (hashLoop h s) = toInt32 (horner31 h s).
Proof.
  revert h. induction s as [|a s IH]; intros h; cbn [hashLoop horner31]; [done|].
  cbn zeta. rewrite IH. apply toInt32_congr, horner31_congr.
  by rewrite toInt32_mod, hash_step_mod.
Qed.

Lemma hashLoop_int32 (s : string) (h : Z) :
  - 2 ^ 31 <= h < 2 ^ 31 -> - 2 ^ 31 <= hashLoop h s < 2 ^ 31.
Proof.
  revert h. induction s as [|a s IH]; intros h Hh; cbn [hashLoop]; [done|].
  apply IH, toInt32_range.
Qed.

(** X20: [hashString] is the polynomial in 31 of the code units of the
    string, wrapped to a signed 32-bit integer, in absolute value: it lies
    between 0 and 2^31 inclusive, and two strings whose polynomials agree
    modulo 2^32 get the same hash. *)
Theorem hashString_is_wrapped_polynomial (s s' : string) :
  hashString s = Z.abs (toInt32 (horner31 0 s)) /\
  0 <= hashString s <= 2 ^ 31 /\
  (horner31 0 s `mod` 2 ^ 32 = horner31 0 s' `mod` 2 ^ 32 ->
   hashString s = hashString s').
Proof.
  assert (forall t, hashLoop 0 t = toInt32 (horner31 0 t)) as Hloop.
  { intros t. rewrite <- hashLoop_horner31.
    symmetry. apply toInt32_fixed, hashLoop_int32. lia. }
  unfold hashString. rewrite !Hloop. split; [|split].
  - done.
  - pose proof (toInt32_range (horner31 0 s)). lia.
  - intros H. by rewrite (toInt32_congr _ _ H).
Qed.

Lemma firstMatch_in (keyLower : string) (entries : list (string * IconMeta))
    (meta : IconMeta) :
  firstMatch keyLower entries = Some meta -> meta ∈ entries.*2.
Proof.
  induction entries as [|[mapKey m] rest IH]; cbn; [done|].
  destruct (includes _ _).
  - intros [= ->]. apply list_elem_of_here.
  - intros H. apply list_elem_of_further. by apply IH.
Qed.

(** X21: [getIconMetaForKey] always finds an icon: for every key it
    returns one of the icons of [ICON_MAP] or of [ICON_POOL], never
    [undefined]; the index it computes from the hash lies within
    [ICON_POOL]. *)
Theorem getIconMetaForKey_defined (key : string) :
  0 <= hashString key `mod` Z.of_nat (length ICON_POOL) < 8 /\
  exists meta, getIconMetaForKey key = Some meta /\
    (meta ∈ ICON_MAP.*2 \/ meta ∈ ICON_POOL).
Proof.
  assert (0 <= hashString key `mod` Z.of_nat (length ICON_POOL) < 8) as Hidx
    by (change (Z.of_nat (length ICON_POOL)) with 8; apply Z.mod_pos_bound; done).
  split; [done|]. unfold getIconMetaForKey.
  destruct (firstMatch _ ICON_MAP) as [meta|] eqn:Hm.
  - exists meta. split; [done|]. left. by apply firstMatch_in in Hm.
  - destruct (lookup_lt_is_Some_2 ICON_POOL
                (Z.to_nat (hashString key `mod` Z.of_nat (length ICON_POOL))))
      as [meta Hmeta]; [change (length ICON_POOL) with 8%nat in *; lia|].
    exists meta. split; [done|]. right. by eapply list_elem_of_lookup_2.
Qed.

End Icons.

(** * The two gradings of an alert *)

Section Severities.
Import Dashboard Alerts.

Lemma lowerChar_idem (a : ascii) : lowerChar (lowerChar a) = lowerChar a.
Proof. destruct a as [[] [] [] [] [] [] [] []]; reflexivity. Qed.

Lemma toLowerCase_idem (s : string) : toLowerCase (toLowerCase s) = toLowerCase s.
Proof.
  unfold toLowerCase. induction s as [|a s IH]; cbn [mapChars]; [done|].
  by rewrite lowerChar_idem, IH.
Qed.

(** X22: the dashboard page and the predictive-analysis page grade an
    alert alike whenever its status, in lower case, contains neither
    "error" nor "caution" and contains "warn" only as part of "warning". *)
Theorem severity_pages_agree (status : string) :
  includes (toLowerCase status) "error" = false ->
  includes (toLowerCase status) "caution" = false ->
  includes (toLowerCase status) "warn" = includes (toLowerCase status) "warning" ->
  dashboardSeverity status = predictiveSeverity status.
Proof.
  intros Herr Hcau Hwarn.
  unfold dashboardSeverity, predictiveSeverity, testWords. cbn [existsb].
  rewrite toLowerCase_idem, Herr, Hcau, Hwarn, !orb_false_r.
  destruct (includes _ "high"), (includes _ "critical"), (includes _ "danger");
    cbn; try done;
    by destruct (includes _ "warning"), (includes _ "medium").
Qed.

Lemma severity_pages_agree_witness :
  dashboardSeverity "Pressure WARNING: high load"
  = predictiveSeverity "Pressure WARNING: high load".
Proof.
  apply severity_pages_agree; reflexivity.
Defined.

(** Without the first condition the two gradings can part. *)
Example severity_pages_differ_on_error :
  dashboardSeverity "Sensor error" = Low /\
  predictiveSeverity "Sensor error" = High.
Proof. split; reflexivity. Qed.

Example getIconMetaForKey_demo :
  getIconMetaForKey "Engine_Temperature"
    = Some (mkIconMeta "fas fa-temperature-low" "text-red-400") /\
  getIconMetaForKey "suction_flow" = ICON_POOL !! Z.to_nat (hashString "suction_flow" `mod` 8).
Proof. split; reflexivity. Qed.

End Severities.

(** * A live message that is falsy *)

Section FalsyMessage.
Import UseCachedSSE.

(** C5, at a live message that is the number 0.  The handler of the
    message caches it and marks the hook as cached, and [has] finds the
    entry; yet the call of the hook that follows, with the message as the
    stream's latest one and without [forceRefresh], returns null as
    [data]: neither the live message nor the cached payload is served.
    With an older cached object in place of the cached 0, that object is
    returned instead of the latest message. *)
Theorem falsy_message_is_not_served :
  let o := mkOptions true true false false CACHE_KEYS.DASHBOARD None in
  let w1 := handleMessage o 1000 (JsNum 0) (mkWorld ∅ initialHookState [] []) in
  let sse := SseResult.mk (JsNum 0) None true false false in
  let view := (useCachedSSE "http://host/stream" o sse (mkClock 1000 1000 1000) w1).1 in
  let older := JsObj [("temp", JsNum 72)] in
  cache w1 !! CACHE_KEYS.DASHBOARD = Some (CacheEntry.mk (JsNum 0) 1000 false) /\
  value (DataCacheService.has 1000 CACHE_KEYS.DASHBOARD (cache w1)) = true /\
  viewIsCached view = true /\
  loading view = false /\
  data view = JsNull /\
  resolveData (JsNum 0) older false = older.
Proof.
  intros o w1 sse view older.
  split_and!; reflexivity.
Qed.

End FalsyMessage.
